(** * Issue triage of the repo-gardening action

    A shallow embedding of
    [projects/github-actions/repo-gardening/src/tasks/triage-issues/index.js]:
    the three body parsers ([findPlugins], [findPlatforms], [findPriority]),
    the label checks, the project-board client and the [triageIssues]
    orchestrator, followed by the properties of the specification that can be
    stated on them. *)

From Stdlib Require Import List String Ascii NArith ZArith Bool Lia.
Import ListNotations.

Set Warnings "-register-all".
Local Open Scope string_scope.
Local Open Scope N_scope.
Local Open Scope list_scope.

(* ================================================================== *)
(** ** JavaScript strings *)

(** A JavaScript string is a sequence of UTF-16 code units.  None of the
    regular expressions of the source carries the [u] or [i] flag, so they
    all work code unit by code unit. *)
Module JsString.

Definition jsstring := list N.

(** An ASCII literal of the source, as code units. *)
Definition lit (s : string) : jsstring :=
  map N_of_ascii (list_ascii_of_string s).

(** [\n] *)
Definition LF : N := 10.
Definition nl : jsstring := [LF].

(** [a === b] on strings. *)
Fixpoint eqs (a b : jsstring) : bool :=
  match a, b with
  | [], [] => true
  | x :: a', y :: b' => (x =? y) && eqs a' b'
  | _, _ => false
  end.

(** White space and line terminators, as [String.prototype.trim] and the
    class [\s] understand them. *)
Definition isSpace (c : N) : bool :=
  (c =? 9) || (c =? 10) || (c =? 11) || (c =? 12) || (c =? 13) || (c =? 32)
  || (c =? 160) || (c =? 5760) || ((8192 <=? c) && (c <=? 8202))
  || (c =? 8232) || (c =? 8233) || (c =? 8239) || (c =? 8287)
  || (c =? 12288) || (c =? 65279).

(** The four line terminators, which [.] does not match. *)
Definition isLineTerminator (c : N) : bool :=
  (c =? 10) || (c =? 13) || (c =? 8232) || (c =? 8233).

Fixpoint dropSpaces (s : jsstring) : jsstring :=
  match s with
  | c :: s' => if isSpace c then dropSpaces s' else s
  | [] => []
  end.

(** [s.trim()] *)
Definition trim (s : jsstring) : jsstring :=
  rev (dropSpaces (rev (dropSpaces s))).

(** [stripPrefix p s] is [Some r] when [s = p ++ r]. *)
Fixpoint stripPrefix (p s : jsstring) : option jsstring :=
  match p with
  | [] => Some s
  | x :: p' =>
      match s with
      | y :: s' => if x =? y then stripPrefix p' s' else None
      | [] => None
      end
  end.

(** [s.split(sep)] for a non-empty separator [sep]: the pieces between the
    successive, non-overlapping occurrences of [sep], scanning from the
    left.  [skip] counts the code units of an occurrence of [sep] still to
    be passed over; [cur] is the current piece, reversed. *)
Fixpoint splitFrom (sep : jsstring) (skip : nat) (cur s : jsstring)
  : list jsstring :=
  match s with
  | [] => [rev cur]
  | x :: s' =>
      match skip with
      | S k => splitFrom sep k cur s'
      | O =>
          match stripPrefix sep s with
          | Some _ => rev cur :: splitFrom sep (pred (List.length sep)) [] s'
          | None => splitFrom sep 0 (x :: cur) s'
          end
      end
  end.

Definition split (sep s : jsstring) : list jsstring :=
  splitFrom sep 0 [] s.

(** [pieces.join(sep)] *)
Fixpoint join (sep : jsstring) (pieces : list jsstring) : jsstring :=
  match pieces with
  | [] => []
  | [p] => p
  | p :: rest => p ++ sep ++ join sep rest
  end.

End JsString.
Import JsString.

(* ================================================================== *)
(** ** Regular expressions *)

(** The fragment of JavaScript regular expressions that the source uses,
    with the backtracking semantics of [RegExp.prototype.exec]: a pattern is
    a sequence of atoms, a quantifier is greedy and gives characters back
    one at a time, and the first successful attempt is the result. *)
Module Regex.

Definition cls := N -> bool.

Inductive atom :=
| Lit (s : jsstring)                      (* literal text *)
| Chr (c : cls)                           (* one code unit of a class *)
| Rep (min : nat) (c : cls) (grp : bool)  (* c{min,}, greedy; captured when grp *)
| Alt (alts : list jsstring) (grp : bool) (* a|b|..., captured when grp *)
| Eos.                                    (* $ without the m flag *)

Record regex := { anchored : bool (* starts with ^, no m flag *);
                  atoms : list atom }.

Definition capture (grp : bool) (text : jsstring) (m : list jsstring) :=
  if grp then text :: m else m.

(** The rest of a pattern, as a function of the rest of the input. *)
Definition cont := jsstring -> option (list jsstring).

(** A quantified class stops after [n] code units, collected (reversed) in
    [acc], when [n] reaches the minimum and the rest of the pattern, [k],
    matches what follows. *)
Definition finish (min : nat) (grp : bool) (n : nat) (acc : jsstring)
           (k : cont) (s : jsstring) : option (list jsstring) :=
  if Nat.leb min n then option_map (capture grp (rev acc)) (k s) else None.

(** A greedy quantified class: take as many code units of the class as
    there are, then give them back one at a time until the rest of the
    pattern matches. *)
Fixpoint repeat (min : nat) (c : cls) (grp : bool) (k : cont)
         (n : nat) (acc s : jsstring) {struct s} : option (list jsstring) :=
  match s with
  | x :: s' =>
      if c x
      then match repeat min c grp k (S n) (x :: acc) s' with
           | Some m => Some m
           | None => finish min grp n acc k s
           end
      else finish min grp n acc k s
  | [] => finish min grp n acc k s
  end.

(** An alternation: the alternatives in their order, the first one after
    which the rest of the pattern matches. *)
Fixpoint alternatives (grp : bool) (k : cont) (s : jsstring)
         (alts : list jsstring) : option (list jsstring) :=
  match alts with
  | [] => None
  | a :: alts' =>
      match stripPrefix a s with
      | Some s' =>
          match k s' with
          | Some m => Some (capture grp a m)
          | None => alternatives grp k s alts'
          end
      | None => alternatives grp k s alts'
      end
  end.

(** [matchHere r s]: the captures of the first successful way of matching
    [r] at the beginning of [s]. *)
Fixpoint matchHere (r : list atom) : cont :=
  match r with
  | [] => fun _ => Some []
  | Lit l :: r' => fun s =>
      match stripPrefix l s with
      | Some s' => matchHere r' s'
      | None => None
      end
  | Chr c :: r' => fun s =>
      match s with
      | x :: s' => if c x then matchHere r' s' else None
      | [] => None
      end
  | Rep min c grp :: r' => repeat min c grp (matchHere r') O []
  | Alt alts grp :: r' => fun s => alternatives grp (matchHere r') s alts
  | Eos :: r' => fun s =>
      match s with
      | [] => matchHere r' []
      | _ :: _ => None
      end
  end.

(** The leftmost position at which the pattern matches. *)
Fixpoint search (r : list atom) (s : jsstring) : option (list jsstring) :=
  match matchHere r s with
  | Some m => Some m
  | None =>
      match s with
      | [] => None
      | _ :: s' => search r s'
      end
  end.

(** Does the pattern match at a position of [pre], in the text
    [pre ++ s]? *)
Fixpoint matchesWithin (r : list atom) (pre s : jsstring) : bool :=
  match pre with
  | [] => false
  | _ :: pre' =>
      match matchHere r (pre ++ s) with
      | Some _ => true
      | None => matchesWithin r pre' s
      end
  end.

(** [re.exec(s)] on a regular expression whose [lastIndex] is 0, and
    [s.match(re)] for a [re] without the [g] flag: the capture groups of
    the match, in the order of their opening parentheses. *)
Definition exec (re : regex) (s : jsstring) : option (list jsstring) :=
  if anchored re then matchHere (atoms re) s else search (atoms re) s.

(** Character classes of the source. *)
Definition dot : cls := fun c => negb (isLineTerminator c).
Definition space : cls := isSpace.
Definition digit : cls := fun c => (48 <=? c) && (c <=? 57).
Definition letter : cls := fun c =>
  ((97 <=? c) && (c <=? 122)) || ((65 <=? c) && (c <=? 90)).
Definition notSlash : cls := fun c => negb (c =? 47).
(** [[a-zA-Z ,]] *)
Definition pluginChar : cls := fun c => letter c || (c =? 32) || (c =? 44).
(** [[a-zA-Z ,-]] *)
Definition platformChar : cls := fun c => pluginChar c || (c =? 45).

End Regex.
Import Regex.

(* ================================================================== *)
(** ** The body parsers *)

(** The regular expressions of the source are quoted with a space between
    their tokens. *)

(** [/ ### \s Impacted \s plugin \n\n ( [a-zA-Z ,]* ) \n\n /gm] *)
Definition pluginHeader : list atom :=
  [Lit (lit "###"); Chr space; Lit (lit "Impacted"); Chr space;
   Lit (lit "plugin")].
Definition pluginRegex : regex :=
  {| anchored := false;
     atoms := pluginHeader
              ++ [Lit (nl ++ nl); Rep 0 pluginChar true; Lit (nl ++ nl)] |}.

(** [/ ### \s Platform \s \(Simple \s and\/or Atomic\) \n\n ( [a-zA-Z ,-]* ) \n\n /gm] *)
Definition platformHeader : list atom :=
  [Lit (lit "###"); Chr space; Lit (lit "Platform"); Chr space;
   Lit (lit "(Simple"); Chr space; Lit (lit "and/or Atomic)")].
Definition platformRegex : regex :=
  {| anchored := false;
     atoms := platformHeader
              ++ [Lit (nl ++ nl); Rep 0 platformChar true; Lit (nl ++ nl)] |}.

(** [/ ### \s Impact \n\n (?<impact> .* ) \n\n ### \s Available \s workarounds\? \n\n (?<blocking> .* ) \n /gm] *)
Definition impactHeader : list atom :=
  [Lit (lit "###"); Chr space; Lit (lit "Impact" ++ nl ++ nl)].
Definition workaroundsHeader : list atom :=
  [Lit (lit "###"); Chr space; Lit (lit "Available"); Chr space;
   Lit (lit "workarounds?")].
Definition priorityRegex : regex :=
  {| anchored := false;
     atoms := impactHeader
              ++ [Rep 0 dot true; Lit (nl ++ nl)]
              ++ workaroundsHeader
              ++ [Lit (nl ++ nl); Rep 0 dot true; Lit nl] |}.

Definition nonBlank (v : jsstring) : bool := negb (eqs (trim v) []).

(** [findPlugins( body )]: the source compiles its regular expression anew
    at each call, so [exec] starts at index 0. *)
Definition findPlugins (body : jsstring) : list jsstring :=
  match exec pluginRegex body with
  | Some m =>
      let plugins := nth 0 m [] in
      filter nonBlank (split (lit ", ") plugins)
  | None => []
  end.

(** [findPlatforms( body )] *)
Definition findPlatforms (body : jsstring) : list jsstring :=
  match exec platformRegex body with
  | Some m =>
      let platforms := nth 0 m [] in
      filter (fun platform =>
                negb (eqs platform (lit "Self-hosted")) && nonBlank platform)
             (split (lit ", ") platforms)
  | None => []
  end.

(** [findPriority( body )].  The source loops [while ( match = exec )], but
    every path through the body of the loop returns, so the loop runs its
    body at most once, on the first match. *)
Definition findPriority (body : jsstring) : jsstring :=
  match exec priorityRegex body with
  | Some m =>
      let impact := nth 0 m [] in
      let blocking := nth 1 m [] in
      if eqs blocking (lit "No and the platform is unusable") then
        if eqs impact (lit "One") then lit "High" else lit "BLOCKER"
      else if eqs blocking (lit "No but the platform is still usable") then
        lit "High"
      else if eqs blocking (lit "Yes, difficult to implement") then
        if eqs impact (lit "All") then lit "High" else lit "Normal"
      else if negb (eqs blocking []) && negb (eqs blocking (lit "_No response_"))
      then
        if eqs impact (lit "All") || eqs impact (lit "Most (> 50%)")
        then lit "Normal" else lit "Low"
      else lit "TBD"
  | None => lit "TBD"
  end.

(* ================================================================== *)
(** ** Values, remote calls and the effects of a run *)

Module Js.

(** The JSON-like values that flow through the task: GraphQL answers and
    the objects the task builds from them. *)
Inductive value :=
| VUndef
| VNull
| VBool (b : bool)
| VNum (n : N)
| VStr (s : jsstring)
| VArr (items : list value)
| VObj (fields : list (string * value)).

(** What a run can throw. *)
Inductive exn :=
| TypeError (what : string)
| ReferenceError (name : string)
| RequestError (info : jsstring).

(** The four GraphQL operations of the source, with their variables. *)
Inductive request :=
| GetProject (ownerName : jsstring) (projectNumber : N)
| GetProjectNumber (id : jsstring) (number : N)
| GetIssueProjectDetails (id : jsstring)
| UpdateProjectV2ItemFieldValue (fieldId itemId projectId optionId : value).

(** The observable effects of a run, in the order they happen.  [debug],
    the logging collaborator, leaves no event, but the template literals
    passed to it are evaluated, and these can throw. *)
Inductive event :=
| SetFailed (msg : jsstring)
| Graphql (req : request)
| GetLabels (owner repo : jsstring) (number : N)
| AddLabels (owner repo : jsstring) (number : N) (labels : list jsstring).

Inductive outcome (A : Type) :=
| Return (a : A)
| Throw (e : exn).
Arguments Return {A} a.
Arguments Throw {A} e.

(** A computation: the events it caused and how it ended. *)
Definition M (A : Type) : Type := (list event * outcome A)%type.

Definition ret {A} (a : A) : M A := ([], Return a).
Definition throw {A} (e : exn) : M A := ([], Throw e).
Definition bind {A B} (m : M A) (k : A -> M B) : M B :=
  match m with
  | (t, Return a) => let (t', r) := k a in (t ++ t', r)
  | (t, Throw e) => (t, Throw e)
  end.
Definition emit (ev : event) : M unit := ([ev], Return tt).
Definition trace {A} (m : M A) : list event := fst m.
Definition result {A} (m : M A) : outcome A := snd m.

Declare Scope js_scope.
Delimit Scope js_scope with js.
Notation "x <- m ;; k" := (bind m (fun x => k))
  (at level 61, m at next level, right associativity) : js_scope.
Notation "m ;;; k" := (bind m (fun _ => k))
  (at level 61, right associativity) : js_scope.

Definition nullish (v : value) : bool :=
  match v with VUndef | VNull => true | _ => false end.

(** ToBoolean *)
Definition truthy (v : value) : bool :=
  match v with
  | VUndef | VNull => false
  | VBool b => b
  | VNum n => negb (n =? 0)
  | VStr s => negb (eqs s [])
  | VArr _ | VObj _ => true
  end.

Fixpoint lookup (k : string) (fields : list (string * value)) : value :=
  match fields with
  | [] => VUndef
  | (k', v) :: rest => if String.eqb k k' then v else lookup k rest
  end.

Definition hasKey (k : string) (fields : list (string * value)) : bool :=
  existsb (fun kv => String.eqb k (fst kv)) fields.

(** Does ToString succeed on the value?  It throws a TypeError on an
    object that has a member [toString] of its own: a member of a JSON
    value is never a function, and the [valueOf] that is tried next
    answers no primitive.  Every other object is "[object Object]"; an
    array joins the strings of its elements, [null] and [undefined]
    counting as empty. *)
Fixpoint stringifies (v : value) : bool :=
  match v with
  | VArr items => forallb stringifies items
  | VObj fields => negb (hasKey "toString" fields)
  | _ => true
  end.

(** [${ v }] in a template literal that is passed to [debug]: the text is
    dropped, the conversion to a string is made. *)
Definition interpolate (v : value) : M unit :=
  if stringifies v then ret tt else throw (TypeError "toString").

(** [v.k] for the property names the source reads ([id], [name], [node],
    [options], ...): none of them is a built-in of a string, a number or an
    array, so only objects answer other than [undefined]; reading a
    property of [undefined] or [null] throws. *)
Definition getProp (v : value) (k : string) : M value :=
  match v with
  | VUndef | VNull => throw (TypeError k)
  | VObj fields => ret (lookup k fields)
  | _ => ret VUndef
  end.

(** [v?.rest]: the whole chain is [undefined] when [v] is nullish. *)
Definition optChain (v : value) (rest : value -> M value) : M value :=
  if nullish v then ret VUndef else rest v.

(** [a === b] where [b] is a string. *)
Definition strictEqStr (a : value) (b : jsstring) : bool :=
  match a with VStr s => eqs s b | _ => false end.

(** [items.find( x => x.name === name )]; the callback reads a property
    and so throws on a nullish element. *)
Fixpoint findByName (name : jsstring) (items : list value) : M value :=
  match items with
  | [] => ret VUndef
  | x :: rest =>
      bind (getProp x "name") (fun n =>
        if strictEqStr n name then ret x else findByName name rest)
  end.

(** [v.find( x => x.name === name )]: [v] has to be an array. *)
Definition arrayFindByName (v : value) (name : jsstring) : M value :=
  match v with
  | VArr items => findByName name items
  | _ => throw (TypeError "find")
  end.

(** [parseInt( digits, 10 )] on a string of decimal digits (a JavaScript
    number is exact up to 2^53; the model keeps the exact natural number). *)
Definition parseInt10 (digits : jsstring) : N :=
  fold_left (fun acc d => 10 * acc + (d - 48)) digits 0.

(** The world a run talks to. *)
Record Env := {
  (** [getInput( name )] of @actions/core: the empty string when absent *)
  getInput : string -> jsstring;
  (** [octokit.graphql( query, variables )]: resolves to the [data] object
      of the answer, or rejects *)
  graphql : request -> outcome (list (string * value));
  (** [getLabels( octokit, owner, repo, number )] of utils/get-labels, a
      remote call like the others: the names of the labels of the issue,
      in a fresh array, or a rejection; the labels do not change between
      the two calls of a run *)
  getLabels : jsstring -> jsstring -> N -> outcome (list jsstring);
  (** [octokit.rest.issues.addLabels( ... )] *)
  addLabels : jsstring -> jsstring -> N -> list jsstring -> outcome unit;
  (** the global object, where an identifier that no scope of the module
      binds is looked up *)
  globalThis : string -> option value
}.

Definition callGraphql (env : Env) (req : request) : M value :=
  (Graphql req :: nil,
   match graphql env req with
   | Return data => Return (VObj data)
   | Throw e => Throw e
   end).

Definition callGetLabels (env : Env) (owner repo : jsstring) (number : N)
  : M (list jsstring) :=
  ([GetLabels owner repo number], getLabels env owner repo number).

Definition callAddLabels (env : Env) (owner repo : jsstring) (number : N)
           (labels : list jsstring) : M unit :=
  ([AddLabels owner repo number labels], addLabels env owner repo number labels).

Definition setFailed (msg : jsstring) : M unit := emit (SetFailed msg).

(** Reading an identifier that is bound neither in the function nor in
    the module: the global object answers, or a [ReferenceError] is
    thrown. *)
Definition readGlobal (env : Env) (name : string) : M value :=
  match globalThis env name with
  | Some v => ret v
  | None => throw (ReferenceError name)
  end.

End Js.
Import Js.
Local Open Scope js_scope.

(* ================================================================== *)
(** ** The task *)

(** The part of the webhook payload that the task reads. *)
Record Payload := {
  action : jsstring;
  issue_number : N;
  issue_body : option jsstring;   (* [null] for an issue without a body *)
  issue_node_id : jsstring;
  label_name : option jsstring;   (* [label.name]; [label] defaults to [{}] *)
  owner_login : jsstring;
  repo_name : jsstring
}.

(** [RegExp.prototype.exec] applies ToString to its argument, and a body
    that is [null] is searched as the text "null". *)
Definition bodyText (body : option jsstring) : jsstring :=
  match body with
  | Some text => text
  | None => lit "null"
  end.

Definition matches (re : regex) (s : jsstring) : bool :=
  match exec re s with Some _ => true | None => false end.

(** [/^\[Pri\].*$/] *)
Definition priRegex : regex :=
  {| anchored := true; atoms := [Lit (lit "[Pri]"); Rep 0 dot false; Eos] |}.

(** [eventLabel.name && eventLabel.name.match( re )] *)
Definition eventLabelMatches (re : regex) (eventLabel : option jsstring) : bool :=
  match eventLabel with
  | Some name => negb (eqs name []) && matches re name
  | None => false
  end.

Definition includes (labels : list jsstring) (l : jsstring) : bool :=
  existsb (eqs l) labels.

Section Task.

Variable env : Env.

(** [hasPriorityLabels( octokit, owner, repo, number, action, eventLabel )] *)
Definition hasPriorityLabels (owner repo : jsstring) (number : N)
           (action : jsstring) (eventLabel : option jsstring)
  : M (list jsstring) :=
  labels <- callGetLabels env owner repo number ;;
  let labels :=
    if eqs (lit "labeled") action && eventLabelMatches priRegex eventLabel
    then labels ++ [match eventLabel with Some n => n | None => [] end]
    else labels in
  ret (filter (matches priRegex) labels).

(** [isBug( ... )]: [true] or [undefined] in the source; its only use is
    as a condition, so [undefined] is rendered as [false]. *)
Definition isBug (owner repo : jsstring) (number : N)
           (action : jsstring) (eventLabel : option jsstring) : M bool :=
  labels <- callGetLabels env owner repo number ;;
  if includes labels (lit "[Type] Bug") then ret true
  else if eqs (lit "labeled") action
          && match eventLabel with
             | Some name => negb (eqs name []) && eqs (lit "[Type] Bug") name
             | None => false
             end
  then ret true
  else ret false.

(** [updateProjectField( octokit, fieldId, itemId, projectId, optionId )] *)
Definition updateProjectField (fieldId itemId projectId optionId : value)
  : M bool :=
  callGraphql env (UpdateProjectV2ItemFieldValue fieldId itemId projectId optionId) ;;;
  ret true.

(** [getItemNodeId( octokit, nodeId )] *)
Definition getItemNodeId (nodeId : jsstring) : M jsstring :=
  issueProjectDetails <- callGraphql env (GetIssueProjectDetails nodeId) ;;
  (* debug( `... ${ issueProjectDetails }` ) *)
  interpolate issueProjectDetails ;;;
  (* debug( `... ${ issueProjectDetails.node?.projectItems }` ) *)
  node <- getProp issueProjectDetails "node" ;;
  projectItems <- optChain node (fun n => getProp n "projectItems") ;;
  interpolate projectItems ;;;
  ret (lit "PVTI_lADOCGvWfc4AUwHEzgI4tDo").

(** [/^(?:https:\/\/)?github\.com\/(?<ownerType>orgs|users)\/(?<ownerName>[^/]+)\/projects\/(?<projectNumber>\d+)/];
    the optional prefix is the alternation of the prefix and the empty
    string, the prefix tried first. *)
Definition projectRegex : regex :=
  {| anchored := true;
     atoms := [Alt [lit "https://"; []] false; Lit (lit "github.com/");
               Alt [lit "orgs"; lit "users"] true; Lit (lit "/");
               Rep 1 notSlash true; Lit (lit "/projects/");
               Rep 1 digit true] |}.

(** [projectDetails.organization?.projectV2.id] *)
Definition organizationProjectId (projectDetails : value) : M value :=
  organization <- getProp projectDetails "organization" ;;
  optChain organization (fun o =>
    projectV2 <- getProp o "projectV2" ;; getProp projectV2 "id").

(** [projectDetails.organization.projectV2.fields] *)
Definition organizationProjectFields (projectDetails : value) : M value :=
  organization <- getProp projectDetails "organization" ;;
  projectV2 <- getProp organization "projectV2" ;;
  getProp projectV2 "fields".

(** [projectDetails.organization?.projectV2.fields.nodes.find( field => field.name === 'Priority' )] *)
Definition organizationPriorityField (projectDetails : value) : M value :=
  organization <- getProp projectDetails "organization" ;;
  optChain organization (fun o =>
    projectV2 <- getProp o "projectV2" ;;
    fields <- getProp projectV2 "fields" ;;
    nodes <- getProp fields "nodes" ;;
    arrayFindByName nodes (lit "Priority")).

(** [getProjectDetails( octokit, projectBoardLink )] *)
Definition getProjectDetails (projectBoardLink : jsstring) : M value :=
  match exec projectRegex projectBoardLink with
  | None => ret (VObj [])
  | Some m =>
      let ownerType := nth 0 m [] in
      let ownerName := nth 1 m [] in
      let projectNumber := nth 2 m [] in
      let projectInfo :=
        [("ownerType",
          VStr (if eqs ownerType (lit "orgs")
                then lit "organization" else lit "user"));
         ("ownerName", VStr ownerName);
         ("projectNumber", VNum (parseInt10 projectNumber))] in
      projectDetails <-
        callGraphql env (GetProject ownerName (parseInt10 projectNumber)) ;;
      projectNodeId <- organizationProjectId projectDetails ;;
      let projectInfo :=
        if truthy projectNodeId
        then projectInfo ++ [("projectNodeId", projectNodeId)]
        else projectInfo in
      (* if ( projectNodeId ) { ... debug( `... ${ projectNodeId }` ) } *)
      (if truthy projectNodeId then interpolate projectNodeId else ret tt) ;;;
      (* debug( `... ${ projectDetails.organization.projectV2.fields }` ) *)
      fields <- organizationProjectFields projectDetails ;;
      interpolate fields ;;;
      priorityField <- organizationPriorityField projectDetails ;;
      let projectInfo :=
        if truthy priorityField
        then projectInfo ++ [("priority", priorityField)]
        else projectInfo in
      (* if ( priorityField ) { ... debug( `... ${ priorityField } ...` ) } *)
      (if truthy priorityField then interpolate priorityField else ret tt) ;;;
      ret (VObj projectInfo)
  end.

(** [isInProject.node?.projectV2.id] and [....number] *)
Definition nodeProjectV2 (isInProject : value) (k : string) : M value :=
  node <- getProp isInProject "node" ;;
  optChain node (fun n => projectV2 <- getProp n "projectV2" ;; getProp projectV2 k).

Definition isNewIssue (action : jsstring) : bool :=
  eqs action (lit "opened") || eqs action (lit "reopened").

(** The first half of [triageIssues], from [getProjectDetails] to the
    update of the board: resolve the board, look the issue up in it, and
    write the Priority field. *)
Definition syncBoard (payload : Payload) (projectBoardLink : jsstring)
  : M unit :=
  let node_id := issue_node_id payload in
  projectInfo <- getProjectDetails projectBoardLink ;;
  isInProject <- callGraphql env (GetProjectNumber node_id 11) ;;
  itemId <- nodeProjectV2 isInProject "id" ;;
  (* debug( `... ${ isInProject.node?.projectV2.id }` ) *)
  projectId <- nodeProjectV2 isInProject "id" ;;
  interpolate projectId ;;;
  (* debug( `... ${ isInProject.node?.projectV2.number }` ) *)
  projectNumber <- nodeProjectV2 isInProject "number" ;;
  interpolate projectNumber ;;;
  itemNodeId <- getItemNodeId node_id ;;
  (* const { priority: { id: priorityFieldId, options } } = projectInfo *)
  priorityInfo <- getProp projectInfo "priority" ;;
  priorityFieldId <- getProp priorityInfo "id" ;;
  options <- getProp priorityInfo "options" ;;
  let priorityText := lit "Low" in
  (* debug( `... ${ priorityFieldId }, ... ${ node_id }, ...
     ${ projectNodeId }` ): no scope of the function or of the module
     binds projectNodeId *)
  interpolate priorityFieldId ;;;
  unbound <- readGlobal env "projectNodeId" ;;
  interpolate unbound ;;;
  (* options.find( option => option.name === priorityText ).id *)
  option <- arrayFindByName options priorityText ;;
  priorityOptionId <- getProp option "id" ;;
  (* if ( ! priorityOptionId ) { debug( ... ) } *)
  projectNodeId <- readGlobal env "projectNodeId" ;;
  isUpdated <- updateProjectField priorityFieldId (VStr itemNodeId)
                 projectNodeId priorityOptionId ;;
  ret tt.

(** "If this is a new issue, try to add labels." *)
Definition addTriageLabels (payload : Payload)
           (priorityLabels : list jsstring) (priority : jsstring)
           (isBugIssue : bool) : M unit :=
  let ownerLogin := owner_login payload in
  let name := repo_name payload in
  let number := issue_number payload in
  let body := bodyText (issue_body payload) in
  if isNewIssue (action payload) then
    let impactedPlugins := findPlugins body in
    (if negb (Nat.eqb (List.length impactedPlugins) 0)
     then callAddLabels env ownerLogin name number
            (map (fun plugin => lit "[Plugin] " ++ plugin) impactedPlugins)
     else ret tt) ;;;
    let impactedPlatforms := findPlatforms body in
    (if negb (Nat.eqb (List.length impactedPlatforms) 0)
     then callAddLabels env ownerLogin name number
            (map (fun platform => lit "[Platform] " ++ platform)
                 impactedPlatforms)
     else ret tt) ;;;
    if Nat.eqb (List.length priorityLabels) 0 && isBugIssue
    then callAddLabels env ownerLogin name number [lit "[Pri] " ++ priority]
    else ret tt
  else ret tt.

(** The second half of [triageIssues], from "Find Priority." on. *)
Definition reconcileLabels (payload : Payload) : M unit :=
  let ownerLogin := owner_login payload in
  let name := repo_name payload in
  let number := issue_number payload in
  let body := bodyText (issue_body payload) in
  priorityLabels <- hasPriorityLabels ownerLogin name number
                      (action payload) (label_name payload) ;;
  let priority := findPriority body in
  isBugIssue <- isBug ownerLogin name number
                  (action payload) (label_name payload) ;;
  addTriageLabels payload priorityLabels priority isBugIssue.

(** [triageIssues( payload, octokit )] *)
Definition triageIssues (payload : Payload) : M unit :=
  let projectToken := getInput env "project_automation_token" in
  if eqs projectToken [] then
    setFailed (lit "triage-issues: Input project_automation_token is required but missing. Aborting.")
  else
  let projectBoardLink := getInput env "project_board" in
  if eqs projectBoardLink [] then
    setFailed (lit "triage-issues: No project board link provided. Cannot triage to a board.")
  else
  syncBoard payload projectBoardLink ;;;
  reconcileLabels payload.

End Task.

(* ================================================================== *)
(** ** The specification's side: templates, policy, observations *)

(** The sections of the issue template, as the issue form writes them. *)
Definition pluginSection (plugins : jsstring) : jsstring :=
  lit "### Impacted plugin" ++ nl ++ nl ++ plugins ++ nl ++ nl.

Definition platformSection (platforms : jsstring) : jsstring :=
  lit "### Platform (Simple and/or Atomic)" ++ nl ++ nl ++ platforms ++ nl ++ nl.

Definition impactSection (impact blocking : jsstring) : jsstring :=
  lit "### Impact" ++ nl ++ nl ++ impact ++ nl ++ nl
  ++ lit "### Available workarounds?" ++ nl ++ nl ++ blocking ++ nl.

(** [parseImpactSignal] of the specification: the two answers that
    [findPriority] reads, when its pattern matches. *)
Definition parseImpactSignal (body : jsstring) : option (jsstring * jsstring) :=
  match exec priorityRegex body with
  | Some m => Some (nth 0 m [], nth 1 m [])
  | None => None
  end.

(* ================================================================== *)
(** ** The priority policy of the specification *)

Module PriorityPolicy.

Inductive PriorityTier := BLOCKER | High | Normal | Low | TBD.

Definition tierName (t : PriorityTier) : jsstring :=
  match t with
  | BLOCKER => lit "BLOCKER"
  | High => lit "High"
  | Normal => lit "Normal"
  | Low => lit "Low"
  | TBD => lit "TBD"
  end.

(** A row of the decision table: a condition on the workaround answer, a
    condition on the impact answer, and the tier of the row. *)
Record row := {
  onWorkaround : jsstring -> bool;
  onImpact : jsstring -> bool;
  tier : PriorityTier
}.

Definition says (answer : string) : jsstring -> bool :=
  fun s => eqs s (lit answer).
Definition any : jsstring -> bool := fun _ => true.
(** a non-empty answer other than "_No response_" *)
Definition answered : jsstring -> bool :=
  fun s => negb (eqs s []) && negb (says "_No response_" s).

(** The table of section 4.2, in its order. *)
Definition table : list row :=
  [ {| onWorkaround := says "No and the platform is unusable";
       onImpact := says "One"; tier := High |};
    {| onWorkaround := says "No and the platform is unusable";
       onImpact := any; tier := BLOCKER |};
    {| onWorkaround := says "No but the platform is still usable";
       onImpact := any; tier := High |};
    {| onWorkaround := says "Yes, difficult to implement";
       onImpact := says "All"; tier := High |};
    {| onWorkaround := says "Yes, difficult to implement";
       onImpact := any; tier := Normal |};
    {| onWorkaround := answered;
       onImpact := fun i => says "All" i || says "Most (> 50%)" i;
       tier := Normal |};
    {| onWorkaround := answered; onImpact := any; tier := Low |};
    {| onWorkaround := any; onImpact := any; tier := TBD |} ].

(** First match. *)
Fixpoint firstMatch (rows : list row) (impact workaround : jsstring)
  : PriorityTier :=
  match rows with
  | [] => TBD
  | r :: rows' =>
      if onWorkaround r workaround && onImpact r impact
      then tier r
      else firstMatch rows' impact workaround
  end.

Definition decide (impact workaround : jsstring) : PriorityTier :=
  firstMatch table impact workaround.

End PriorityPolicy.
Import PriorityPolicy.

(** The platform entries that [findPlatforms] keeps. *)
Definition keptPlatform (platform : jsstring) : bool :=
  negb (eqs platform (lit "Self-hosted")) && nonBlank platform.

(** Continuations of a pattern: [k1] succeeds only where [k2] does; [k]
    succeeds somewhere to the right. *)
Definition weaker (k1 k2 : cont) : Prop :=
  forall s, k1 s <> None -> k2 s <> None.

Definition reaches (k : cont) (s : jsstring) : Prop :=
  exists p s', s = p ++ s' /\ k s' <> None.

(** What is observed of a run. *)
Definition addedLabels (t : list event) : list jsstring :=
  flat_map (fun ev => match ev with
                      | AddLabels _ _ _ labels => labels
                      | _ => []
                      end) t.

Definition isGraphql (ev : event) : Prop :=
  match ev with Graphql _ => True | _ => False end.

Definition isLabelCall (ev : event) : Prop :=
  match ev with GetLabels _ _ _ | AddLabels _ _ _ _ => True | _ => False end.

(** Every event of the computation satisfies [Q]. *)
Definition always {A} (Q : event -> Prop) (m : M A) : Prop :=
  Forall Q (trace m).

(** [v.k] where [v] is neither [undefined] nor [null]. *)
Definition member (k : string) (v : value) : value :=
  match v with
  | VObj fields => lookup k fields
  | _ => VUndef
  end.

(** [data.node?.projectItems], the value that [getItemNodeId] logs. *)
Definition issueProjectItems (data : list (string * value)) : value :=
  if nullish (lookup "node" data) then VUndef
  else member "projectItems" (lookup "node" data).

(** The identity of the board item that [getItemNodeId] answers. *)
Definition fixedItemNodeId : jsstring := lit "PVTI_lADOCGvWfc4AUwHEzgI4tDo".

Definition targetsFixedItem (ev : event) : Prop :=
  match ev with
  | Graphql (UpdateProjectV2ItemFieldValue _ itemId _ _) =>
      itemId = VStr fixedItemNodeId
  | _ => True
  end.

(** A computation stops at the first GraphQL request that is rejected. *)
Definition failStop (env : Env) {A} (m : M A) : Prop :=
  forall req e,
    In (Graphql req) (trace m) -> graphql env req = Throw e ->
    result m = Throw e.

(** A priority label: a name that [/^\[Pri\].*$/] matches. *)
Definition isPriorityLabel (l : jsstring) : bool := matches priRegex l.

(** The priority labels that [hasPriorityLabels] finds, given the labels
    [ls] of the issue. *)
Definition currentPriorityLabels (ls : list jsstring) (action : jsstring)
           (eventLabel : option jsstring) : list jsstring :=
  filter isPriorityLabel
    (if eqs (lit "labeled") action && eventLabelMatches priRegex eventLabel
     then ls ++ [match eventLabel with Some n => n | None => [] end]
     else ls).

(** The answer of [isBug], given the labels [ls] of the issue. *)
Definition isBugType (ls : list jsstring) (action : jsstring)
           (eventLabel : option jsstring) : bool :=
  includes ls (lit "[Type] Bug")
  || (eqs (lit "labeled") action
      && match eventLabel with
         | Some name => negb (eqs name []) && eqs (lit "[Type] Bug") name
         | None => false
         end).

(** The priority labels that a run adds to the issue. *)
Definition addedPriorityLabels (env : Env) (payload : Payload) : list jsstring :=
  filter isPriorityLabel (addedLabels (trace (triageIssues env payload))).

(** The sentence of the specification on failures of the board chain: on a
    new issue, a rejected request of the chain does not end the run, and
    the label calls are still made. *)
Definition board_failure_is_caught : Prop :=
  forall (env : Env) (payload : Payload) (req : request) (e : exn),
    isNewIssue (action payload) = true ->
    In (Graphql req) (trace (triageIssues env payload)) ->
    graphql env req = Throw e ->
    result (triageIssues env payload) <> Throw e
    /\ Exists isLabelCall (trace (triageIssues env payload)).

(* ================================================================== *)
(** ** Concrete runs *)

Module Scenario.

Definition object (id name : string) : list (string * value) :=
  [("id", VStr (lit id)); ("name", VStr (lit name))].

(** The answer to the query of the board: a project with a Title field
    and a single-select Priority field with the given options. *)
Definition board (options : list value) : list (string * value) :=
  [("organization",
    VObj [("projectV2",
           VObj [("id", VStr (lit "PVT_kwDOCGvWfc4AUwHE"));
                 ("fields",
                  VObj [("nodes",
                         VArr [VObj (object "PVTF_title" "Title");
                               VObj (object "PVTSSF_priority" "Priority"
                                     ++ [("options", VArr options)])])])])])].

Definition allOptions : list value :=
  [VObj (object "opt_blocker" "BLOCKER"); VObj (object "opt_high" "High");
   VObj (object "opt_normal" "Normal"); VObj (object "opt_low" "Low")].

Definition optionsWithoutLow : list value :=
  [VObj (object "opt_high" "High"); VObj (object "opt_normal" "Normal")].

(** The link of the workflow of the repository. *)
Definition boardLink : jsstring :=
  lit "https://github.com/orgs/johns-test-org/projects/11/".

Definition answers (options : list value) (req : request)
  : outcome (list (string * value)) :=
  match req with
  | GetProject _ _ => Return (board options)
  | GetProjectNumber _ _ =>
      Return [("node", VObj [("projectV2",
                              VObj [("id", VStr (lit "PVT_kwDOCGvWfc4AUwHE"));
                                    ("number", VNum 11)])])]
  | GetIssueProjectDetails _ =>
      Return [("node", VObj [("projectItems", VObj [("nodes", VArr [])])])]
  | UpdateProjectV2ItemFieldValue _ _ _ _ =>
      Return [("set_status",
               VObj [("projectV2Item",
                      VObj [("id", VStr fixedItemNodeId)])])]
  end.

(** A world in which every remote call succeeds.  [projectNodeId] is what
    the global object holds under that name, if anything; Node.js defines
    no such global. *)
Definition world (link : jsstring) (options : list value)
           (projectNodeId : option value) (labels : list jsstring) : Env :=
  {| getInput := fun name =>
       if String.eqb name "project_automation_token" then lit "ghs_token"
       else if String.eqb name "project_board" then link
       else [];
     graphql := answers options;
     getLabels := fun _ _ _ => Return labels;
     addLabels := fun _ _ _ _ => Return tt;
     globalThis := fun name =>
       if String.eqb name "projectNodeId" then projectNodeId else None |}.

(** The same world, but the board cannot be fetched. *)
Definition unreachable : exn := RequestError (lit "Bad credentials").

Definition worldWithoutBoard (labels : list jsstring) : Env :=
  {| getInput := getInput (world boardLink allOptions None labels);
     graphql := fun req =>
       match req with
       | GetProject _ _ => Throw unreachable
       | _ => answers allOptions req
       end;
     getLabels := fun _ _ _ => Return labels;
     addLabels := fun _ _ _ _ => Return tt;
     globalThis := fun _ => None |}.

(** A world without configuration. *)
Definition worldWithoutToken : Env :=
  {| getInput := fun _ => [];
     graphql := answers allOptions;
     getLabels := fun _ _ _ => Return [];
     addLabels := fun _ _ _ _ => Return tt;
     globalThis := fun _ => None |}.

Definition bugReport : jsstring :=
  pluginSection (lit "Jetpack, Boost")
  ++ platformSection (lit "Simple, Self-hosted")
  ++ impactSection (lit "All") (lit "No and the platform is unusable").

Definition opened : Payload :=
  {| action := lit "opened";
     issue_number := 42;
     issue_body := Some bugReport;
     issue_node_id := lit "I_kwDOissue42";
     label_name := None;
     owner_login := lit "johns-test-org";
     repo_name := lit "github-actions-test" |}.

(** The updates of a board field in a trace. *)
Definition boardUpdates (t : list event) : list request :=
  flat_map (fun ev => match ev with
                      | Graphql (UpdateProjectV2ItemFieldValue f i p o) =>
                          [UpdateProjectV2ItemFieldValue f i p o]
                      | _ => []
                      end) t.

End Scenario.
Import Scenario.


(* ================================================================== *)
(** ** The escalation check *)

(** [/^\[Status\] Escalated.*$/] *)
Definition escalatedRegex : regex :=
  {| anchored := true;
     atoms := [Lit (lit "[Status] Escalated"); Rep 0 dot false; Eos] |}.

(** [hasEscalatedLabel( octokit, owner, repo, number, action, eventLabel )]:
    [true], or [undefined] when the function falls off its end. *)
Definition hasEscalatedLabel (env : Env) (owner repo : jsstring) (number : N)
           (action : jsstring) (eventLabel : option jsstring) : M value :=
  labels <- callGetLabels env owner repo number ;;
  if includes labels (lit "[Status] Escalated")
     || includes labels (lit "[Status] Escalated to Kitkat")
  then ret (VBool true)
  else if eqs (lit "labeled") action
          && eventLabelMatches escalatedRegex eventLabel
  then ret (VBool true)
  else ret VUndef.

(** The label calls and the board updates of a trace. *)
Definition isAddLabels (ev : event) : Prop :=
  match ev with AddLabels _ _ _ _ => True | _ => False end.

Definition isBoardUpdate (ev : event) : Prop :=
  match ev with
  | Graphql (UpdateProjectV2ItemFieldValue _ _ _ _) => True
  | _ => False
  end.

(** A computation stops at the first call to the label API that is
    rejected. *)
Definition labelFailStop (env : Env) {A} (m : M A) : Prop :=
  (forall owner repo number e,
      In (GetLabels owner repo number) (trace m) ->
      getLabels env owner repo number = Throw e -> result m = Throw e)
  /\ (forall owner repo number labels e,
         In (AddLabels owner repo number labels) (trace m) ->
         addLabels env owner repo number labels = Throw e ->
         result m = Throw e).

(** The labels that a run can add: those of the plugins and platforms
    named in the body, and the label of one of the five priorities. *)
Definition priorityNames : list jsstring :=
  [lit "BLOCKER"; lit "High"; lit "Normal"; lit "Low"; lit "TBD"].

Definition triageLabel (l : jsstring) : Prop :=
  (exists plugin, l = lit "[Plugin] " ++ plugin)
  \/ (exists platform,
         l = lit "[Platform] " ++ platform /\ platform <> lit "Self-hosted")
  \/ (exists priority, l = lit "[Pri] " ++ priority /\ In priority priorityNames).

(** Kinds of events, for counting them. *)
Definition graphqlEvent (ev : event) : bool :=
  match ev with Graphql _ => true | _ => false end.

Definition updateEvent (ev : event) : bool :=
  match ev with
  | Graphql (UpdateProjectV2ItemFieldValue _ _ _ _) => true
  | _ => false
  end.

Definition getLabelsEvent (ev : event) : bool :=
  match ev with GetLabels _ _ _ => true | _ => false end.

Definition addLabelsEvent (ev : event) : bool :=
  match ev with AddLabels _ _ _ _ => true | _ => false end.

(** The computation causes at most [n] events of the kind [p]. *)
Definition atMost {A} (p : event -> bool) (n : nat) (m : M A) : Prop :=
  (List.length (filter p (trace m)) <= n)%nat.

(** The requests about the issue carry the node id of the issue, and the
    look-up of the issue in the project asks for project number 11. *)
Definition asksAboutIssue (node_id : jsstring) (ev : event) : Prop :=
  match ev with
  | Graphql (GetProjectNumber id number) => id = node_id /\ number = 11
  | Graphql (GetIssueProjectDetails id) => id = node_id
  | _ => True
  end.

(** The labels of an [addLabels] call are triage labels. *)
Definition addsTriageLabels (ev : event) : Prop :=
  match ev with
  | AddLabels _ _ _ labels => Forall triageLabel labels
  | _ => True
  end.





(** The labels that a run is to add to a new issue with the labels [ls]. *)
Definition labelsToAdd (payload : Payload) (ls : list jsstring)
  : list jsstring :=
  let body := bodyText (issue_body payload) in
  if isNewIssue (action payload) then
    map (fun plugin => lit "[Plugin] " ++ plugin) (findPlugins body)
    ++ map (fun platform => lit "[Platform] " ++ platform) (findPlatforms body)
    ++ (if Nat.eqb (List.length (filter isPriorityLabel ls)) 0
           && includes ls (lit "[Type] Bug")
        then [lit "[Pri] " ++ findPriority body]
        else [])
  else [].

(** A world in which the board answers, the global [projectNodeId] is
    set, and the label API rejects every addition. *)
Definition labelsRejected : exn := RequestError (lit "Validation Failed").

Definition worldRejectingLabels (labels : list jsstring) : Env :=
  {| getInput := getInput (world boardLink allOptions None labels);
     graphql := answers allOptions;
     getLabels := fun _ _ _ => Return labels;
     addLabels := fun _ _ _ _ => Throw labelsRejected;
     globalThis := fun name =>
       if String.eqb name "projectNodeId"
       then Some (VStr (lit "PVT_kwDOCGvWfc4AUwHE")) else None |}.

(* ================================================================== *)
(** ** The events of the video player

    [listenEventsHandler] of
    [projects/packages/videopress/src/client/block-editor/hooks/use-video-player/index.ts],
    the listener of the messages that the player in the sandbox sends. *)

Module VideoPlayer.

(** The values of [playerState.current]: 'not-rendered', 'loaded',
    'first-play' and 'ready'. *)
Inductive PlayerStateProp := NotRendered | Loaded | FirstPlay | Ready.

(** The messages posted to the player; the time of
    [videopress_action_set_currenttime] is [atTime / 1000], a quotient
    that is not computed here. *)
Inductive action :=
| ActionPause
| ActionSetCurrentTime (atTime : value).

(** A message event: its data, and its source, a window or [null]. *)
Record MessageEvent := {
  data : value;
  source : option N
}.

(** The ref [playerState] and the state [playerIsReady] of the hook. *)
Record Hook := {
  playerState : PlayerStateProp;
  playerIsReady : bool
}.

(** What one call of the handler leaves: the hook, the messages posted
    with their targets, and the exception that ended the call, if any. *)
Record Handled := {
  hook : Hook;
  posted : list (N * action);
  thrown : option exn
}.

(** [( event?.data || {} ).event]: only an object has such a property. *)
Definition eventNameOf (ev : MessageEvent) : value :=
  match (if truthy (data ev) then data ev else VObj []) with
  | VObj fields => lookup "event" fields
  | _ => VUndef
  end.

(** [eventData.state], where [eventData] is the data, or [{}] when the
    data is [undefined]; it is read only once the name of the event has
    been found in the data, which then is an object. *)
Definition eventStateOf (ev : MessageEvent) : value :=
  match data ev with
  | VObj fields => lookup "state" fields
  | _ => VUndef
  end.

Definition isLoaded (s : PlayerStateProp) : bool :=
  match s with Loaded => true | _ => false end.

(** [listenEventsHandler( event )], in a hook whose option [atTime] is
    [atTime] ([undefined] when it is not given). *)
Definition listenEventsHandler (atTime : value) (h : Hook)
           (ev : MessageEvent) : Handled :=
  let eventName := eventNameOf ev in
  let h1 :=
    if strictEqStr eventName (lit "videopress_loading_state")
       && strictEqStr (eventStateOf ev) (lit "loaded")
    then {| playerState := Loaded; playerIsReady := playerIsReady h |}
    else h in
  if strictEqStr eventName (lit "videopress_playing")
     && isLoaded (playerState h1)
  then
    match source ev with
    | None =>
        (* source.postMessage on null, after the state was set *)
        {| hook := {| playerState := FirstPlay;
                      playerIsReady := playerIsReady h1 |};
           posted := [];
           thrown := Some (TypeError "postMessage") |}
    | Some window =>
        {| hook := {| playerState := Ready; playerIsReady := true |};
           posted := (window, ActionPause)
                     :: match atTime with
                        | VUndef => []
                        | _ => [(window, ActionSetCurrentTime atTime)]
                        end;
           thrown := None |}
    end
  else {| hook := h1; posted := []; thrown := None |}.

(** The hook starts not rendered and not ready. *)
Definition initialHook : Hook :=
  {| playerState := NotRendered; playerIsReady := false |}.

(** The listener called on the events of a list, one after the other; an
    exception ends a call, not the listening. *)
Fixpoint listenAll (atTime : value) (h : Hook) (evs : list MessageEvent)
  : Hook * list (N * action) :=
  match evs with
  | [] => (h, [])
  | ev :: evs' =>
      let r := listenEventsHandler atTime h ev in
      let (h', later) := listenAll atTime (hook r) evs' in
      (h', posted r ++ later)
  end.


Definition playingEvent (ev : MessageEvent) : bool :=
  strictEqStr (eventNameOf ev) (lit "videopress_playing").




(** Messages of the player, coming from the window 1. *)
Definition loadedMessage : MessageEvent :=
  {| data := VObj [("event", VStr (lit "videopress_loading_state"));
                   ("state", VStr (lit "loaded"))];
     source := Some 1 |}.

Definition playingMessage : MessageEvent :=
  {| data := VObj [("event", VStr (lit "videopress_playing"))];
     source := Some 1 |}.

Definition otherMessage : MessageEvent :=
  {| data := VStr (lit "resize"); source := None |}.

End VideoPlayer.

(* ================================================================== *)
(** ** Strings and patterns: basic facts *)

Section StringFacts.

Lemma eqs_refl (a : jsstring) : eqs a a = true.
Proof.
  induction a as [|x a IH]; simpl; [reflexivity|].
  now rewrite N.eqb_refl, IH.
Qed.

Lemma eqs_eq (a b : jsstring) : eqs a b = true <-> a = b.
Proof.
  split; [|intros ->; apply eqs_refl].
  revert b; induction a as [|x a IH]; intros [|y b]; simpl; try discriminate.
  - reflexivity.
  - intros H. apply andb_true_iff in H as [Hx Hab].
    apply N.eqb_eq in Hx. apply IH in Hab. now subst.
Qed.

Lemma stripPrefix_app (p r : jsstring) : stripPrefix p (p ++ r) = Some r.
Proof.
  induction p as [|x p IH]; simpl; [reflexivity|].
  now rewrite N.eqb_refl.
Qed.

Lemma stripPrefix_Some (p s r : jsstring) :
  stripPrefix p s = Some r -> s = p ++ r.
Proof.
  revert s; induction p as [|x p IH]; intros s; simpl.
  - now intros [= ->].
  - destruct s as [|y s]; [discriminate|].
    destruct (N.eqb_spec x y) as [->|]; [|discriminate].
    intros H. now rewrite (IH _ H).
Qed.

End StringFacts.

Section RegexFacts.

(** A quantified class followed by text that does not start in the class
    captures exactly the run of the class. *)
Lemma repeat_greedy (min : nat) (c : cls) (grp : bool) (k : cont)
      (w rest : jsstring) (m : list jsstring) :
  forallb c w = true ->
  match rest with [] => True | x :: _ => c x = false end ->
  k rest = Some m ->
  forall (n : nat) (acc : jsstring),
    (min <= n + List.length w)%nat ->
    repeat min c grp k n acc (w ++ rest)
    = Some (capture grp (rev acc ++ w) m).
Proof.
  intros Hw Hrest Hk.
  assert (Hstop : forall n acc, (min <= n)%nat ->
            finish min grp n acc k rest = Some (capture grp (rev acc) m)).
  { intros n acc Hn. unfold finish.
    apply Nat.leb_le in Hn. now rewrite Hn, Hk. }
  induction w as [|x w IH]; intros n acc Hn; simpl in *.
  - rewrite app_nil_r. rewrite Nat.add_0_r in Hn.
    destruct rest as [|y rest']; simpl.
    + now apply Hstop.
    + rewrite Hrest. now apply Hstop.
  - apply andb_true_iff in Hw as [Hx Hw]. rewrite Hx.
    rewrite (IH Hw (S n) (x :: acc)) by lia.
    simpl. now rewrite <- app_assoc.
Qed.

Lemma search_here (r : list atom) (s : jsstring) (m : list jsstring) :
  matchHere r s = Some m -> search r s = Some m.
Proof. intros H. destruct s; simpl; now rewrite H. Qed.

(** *** A pattern and its parts

    Where a pattern matches, each of its parts matches: its beginning at
    the same place, what follows further to the right. *)

Lemma finish_weaker min grp n acc (k1 k2 : cont) s :
  weaker k1 k2 ->
  finish min grp n acc k1 s <> None -> finish min grp n acc k2 s <> None.
Proof.
  unfold finish. intros Hk. destruct (Nat.leb min n); [|easy].
  specialize (Hk s). destruct (k1 s), (k2 s); simpl; try easy.
  intros _. now apply Hk.
Qed.

Lemma repeat_weaker min c grp (k1 k2 : cont) :
  weaker k1 k2 ->
  forall s n acc,
    repeat min c grp k1 n acc s <> None -> repeat min c grp k2 n acc s <> None.
Proof.
  intros Hk. induction s as [|x s IH]; intros n acc; simpl.
  - now apply finish_weaker.
  - destruct (c x); [|now apply finish_weaker].
    specialize (IH (S n) (x :: acc)).
    destruct (repeat min c grp k1 (S n) (x :: acc) s).
    + intros _. destruct (repeat min c grp k2 (S n) (x :: acc) s); [easy|].
      now exfalso; apply IH.
    + intros H. destruct (repeat min c grp k2 (S n) (x :: acc) s); [easy|].
      revert H. now apply finish_weaker.
Qed.

Lemma alternatives_weaker grp (k1 k2 : cont) s :
  weaker k1 k2 ->
  forall alts,
    alternatives grp k1 s alts <> None -> alternatives grp k2 s alts <> None.
Proof.
  intros Hk. induction alts as [|a alts IH]; simpl; [easy|].
  destruct (stripPrefix a s) as [s'|]; [|exact IH].
  specialize (Hk s').
  destruct (k1 s'), (k2 s'); try easy.
  intros _. now exfalso; apply Hk.
Qed.

Lemma matchHere_prefix (r1 r2 : list atom) :
  weaker (matchHere (r1 ++ r2)) (matchHere r1).
Proof.
  induction r1 as [|a r1 IH]; intros s; [easy|].
  destruct a as [l|c|min c grp|alts grp|]; cbn [app matchHere].
  - destruct (stripPrefix l s); [apply IH | easy].
  - destruct s as [|x s]; [easy|]. destruct (c x); [apply IH | easy].
  - now apply repeat_weaker.
  - now apply alternatives_weaker.
  - destruct s; [apply IH | easy].
Qed.

Lemma reaches_here (k : cont) s : k s <> None -> reaches k s.
Proof. intros H. now exists [], s. Qed.

Lemma reaches_later (k : cont) p s : reaches k s -> reaches k (p ++ s).
Proof.
  intros (q & s' & -> & H). exists (p ++ q), s'. now rewrite <- app_assoc.
Qed.

Lemma repeat_reaches min c grp (k : cont) :
  forall s n acc, repeat min c grp k n acc s <> None -> reaches k s.
Proof.
  assert (Hfin : forall s n acc,
             finish min grp n acc k s <> None -> reaches k s).
  { intros s n acc. unfold finish. destruct (Nat.leb min n); [|easy].
    intros H. apply reaches_here. now destruct (k s). }
  induction s as [|x s IH]; intros n acc; simpl; [apply Hfin|].
  destruct (c x); [|apply Hfin].
  specialize (IH (S n) (x :: acc)).
  destruct (repeat min c grp k (S n) (x :: acc) s); [|apply Hfin].
  intros _. apply (reaches_later _ [x]). now apply IH.
Qed.

Lemma alternatives_reaches grp (k : cont) s :
  forall alts, alternatives grp k s alts <> None -> reaches k s.
Proof.
  induction alts as [|a alts IH]; simpl; [easy|].
  destruct (stripPrefix a s) as [s'|] eqn:Ha; [|exact IH].
  destruct (k s') eqn:Hk; [|exact IH].
  intros _. apply stripPrefix_Some in Ha as ->.
  apply reaches_later, reaches_here. now rewrite Hk.
Qed.

Lemma matchHere_suffix (r1 r2 : list atom) :
  forall s, matchHere (r1 ++ r2) s <> None -> reaches (matchHere r2) s.
Proof.
  induction r1 as [|a r1 IH]; intros s; [apply reaches_here|].
  destruct a as [l|c|min c grp|alts grp|]; cbn [app matchHere].
  - destruct (stripPrefix l s) as [s'|] eqn:Hl; [|easy].
    intros H. apply stripPrefix_Some in Hl as ->.
    now apply reaches_later, IH.
  - destruct s as [|x s]; [easy|]. destruct (c x); [|easy].
    intros H. now apply (reaches_later _ [x]), IH.
  - intros H. apply repeat_reaches in H as (p & s' & -> & H).
    now apply reaches_later, IH.
  - intros H. apply alternatives_reaches in H as (p & s' & -> & H).
    now apply reaches_later, IH.
  - destruct s; [|easy]. apply IH.
Qed.

Lemma search_reaches (r : list atom) :
  forall s, search r s <> None <-> reaches (matchHere r) s.
Proof.
  induction s as [|x s IH]; simpl.
  - split.
    + intros H. apply reaches_here. now destruct (matchHere r []).
    + intros (p & s' & E & H). symmetry in E.
      apply app_eq_nil in E as [_ ->]. now destruct (matchHere r []).
  - destruct (matchHere r (x :: s)) eqn:Hm.
    + split; [|easy]. intros _. apply reaches_here. now rewrite Hm.
    + rewrite IH. split.
      * apply (reaches_later _ [x]).
      * intros (p & s' & E & H). destruct p as [|y p]; simpl in E.
        -- subst s'. now rewrite Hm in H.
        -- injection E as _ ->. now exists p, s'.
Qed.

(** The search passes over a stretch of text in which the pattern does
    not match. *)
Lemma search_skip (r : list atom) (pre s : jsstring) :
  matchesWithin r pre s = false -> search r (pre ++ s) = search r s.
Proof.
  induction pre as [|x pre IH]; [reflexivity|].
  cbn [matchesWithin search app].
  change (x :: pre ++ s) with ((x :: pre) ++ s).
  destruct (matchHere r ((x :: pre) ++ s)); [discriminate | exact IH].
Qed.

Lemma matchesWithin_prefix (r1 r2 : list atom) (pre s : jsstring) :
  matchesWithin r1 pre s = false -> matchesWithin (r1 ++ r2) pre s = false.
Proof.
  induction pre as [|x pre IH]; [reflexivity|].
  cbn [matchesWithin].
  pose proof (matchHere_prefix r1 r2 ((x :: pre) ++ s)) as H.
  destruct (matchHere r1 ((x :: pre) ++ s)); [discriminate|].
  destruct (matchHere (r1 ++ r2) ((x :: pre) ++ s)); [|exact IH].
  now exfalso; apply H.
Qed.

(** A pattern matches nowhere in a text in which one of its parts matches
    nowhere. *)
Lemma search_part (r1 part r2 : list atom) (s : jsstring) :
  search part s = None -> search (r1 ++ part ++ r2) s = None.
Proof.
  intros Hpart.
  destruct (search (r1 ++ part ++ r2) s) eqn:Hs; [exfalso|reflexivity].
  assert (H : search (r1 ++ part ++ r2) s <> None) by now rewrite Hs.
  apply search_reaches in H as (p & s' & -> & H).
  apply matchHere_suffix in H as (q & s'' & -> & H).
  apply matchHere_prefix in H.
  assert (Hr : reaches (matchHere part) (p ++ q ++ s''))
    by now apply reaches_later, reaches_later, reaches_here.
  apply search_reaches in Hr. now apply Hr.
Qed.

End RegexFacts.

(* ================================================================== *)
(** ** The body parsers: what they find in a templated body *)

Section Sections.

Lemma matchHere_Lit (l : jsstring) (r : list atom) (s s' : jsstring) :
  stripPrefix l s = Some s' -> matchHere (Lit l :: r) s = matchHere r s'.
Proof. intros H. cbn [matchHere]. now rewrite H. Qed.

Lemma matchHere_Chr (c : cls) (r : list atom) (x : N) (s : jsstring) :
  c x = true -> matchHere (Chr c :: r) (x :: s) = matchHere r s.
Proof. intros H. cbn [matchHere]. now rewrite H. Qed.

Lemma capture_run (c : cls) (k : cont) (w rest : jsstring) (m : list jsstring) :
  forallb c w = true ->
  match rest with [] => True | x :: _ => c x = false end ->
  k rest = Some m ->
  repeat 0 c true k 0 [] (w ++ rest) = Some (w :: m).
Proof.
  intros Hw Hrest Hk.
  rewrite (repeat_greedy 0 c true k w rest m Hw Hrest Hk 0 []) by (simpl; lia).
  reflexivity.
Qed.


(** One atom of a pattern against the text at hand. *)
Ltac atom_step :=
  first
    [ erewrite matchHere_Lit by (cbn; reflexivity)
    | rewrite matchHere_Chr by reflexivity
    | match goal with
      | |- matchHere (Rep 0 _ true :: _) _ = _ =>
          change (matchHere (Rep 0 ?c true :: ?r) ?s)
            with (repeat 0 c true (matchHere r) O [] s);
          apply capture_run; [assumption | reflexivity | ]
      end ].

Lemma exec_impactSection (pre impact blocking post : jsstring) :
  matchesWithin impactHeader pre (impactSection impact blocking ++ post) = false ->
  forallb dot impact = true ->
  forallb dot blocking = true ->
  exec priorityRegex (pre ++ impactSection impact blocking ++ post)
  = Some [impact; blocking].
Proof.
  intros Hpre Hi Hb.
  unfold exec, priorityRegex, atoms, anchored.
  rewrite search_skip by now apply matchesWithin_prefix.
  apply search_here.
  unfold impactSection, impactHeader, workaroundsHeader.
  cbn [app]. rewrite <- !app_assoc.
  repeat atom_step. reflexivity.
Qed.

Lemma exec_pluginSection (pre plugins post : jsstring) :
  matchesWithin pluginHeader pre (pluginSection plugins ++ post) = false ->
  forallb pluginChar plugins = true ->
  exec pluginRegex (pre ++ pluginSection plugins ++ post) = Some [plugins].
Proof.
  intros Hpre Hp.
  unfold exec, pluginRegex, atoms, anchored.
  rewrite search_skip by now apply matchesWithin_prefix.
  apply search_here.
  unfold pluginSection, pluginHeader.
  cbn [app]. rewrite <- !app_assoc.
  repeat atom_step. reflexivity.
Qed.

Lemma exec_platformSection (pre platforms post : jsstring) :
  matchesWithin platformHeader pre (platformSection platforms ++ post) = false ->
  forallb platformChar platforms = true ->
  exec platformRegex (pre ++ platformSection platforms ++ post)
  = Some [platforms].
Proof.
  intros Hpre Hp.
  unfold exec, platformRegex, atoms, anchored.
  rewrite search_skip by now apply matchesWithin_prefix.
  apply search_here.
  unfold platformSection, platformHeader.
  cbn [app]. rewrite <- !app_assoc.
  repeat atom_step. reflexivity.
Qed.

(** *** Splitting a list of values *)

Let comma : N := 44.
Let sep : jsstring := lit ", ".

Lemma splitFrom_piece (e cur : jsstring) :
  ~ In comma e ->
  (splitFrom sep 0 cur e = [rev cur ++ e])
  /\ (forall rest,
        splitFrom sep 0 cur (e ++ sep ++ rest)
        = (rev cur ++ e) :: splitFrom sep 0 [] rest).
Proof.
  revert cur. induction e as [|x e IH]; intros cur He.
  - split; [now rewrite app_nil_r|].
    intros rest. rewrite app_nil_r. destruct rest; reflexivity.
  - assert (Hx : comma <> x) by (intros <-; apply He; now left).
    assert (He' : ~ In comma e) by (intros H; apply He; now right).
    destruct (IH (x :: cur) He') as [IH1 IH2].
    assert (Hstep : forall t, splitFrom sep 0 cur (x :: t)
                              = splitFrom sep 0 (x :: cur) t).
    { intros t. change sep with [comma; 32].
      cbn [splitFrom stripPrefix].
      now destruct (N.eqb_spec comma x). }
    split; [|intros rest]; cbn [app]; rewrite Hstep.
    + rewrite IH1. cbn [rev]. now rewrite <- app_assoc.
    + rewrite IH2. cbn [rev]. now rewrite <- app_assoc.
Qed.

Lemma split_join (entries : list jsstring) :
  entries <> [] ->
  (forall e, In e entries -> ~ In comma e) ->
  split sep (join sep entries) = entries.
Proof.
  unfold split.
  induction entries as [|e entries IH]; intros Hne Hall; [easy|].
  assert (He : ~ In comma e) by (apply Hall; now left).
  destruct entries as [|e' entries].
  - cbn [join]. now rewrite (proj1 (splitFrom_piece e [] He)).
  - change (join sep (e :: e' :: entries))
      with (e ++ sep ++ join sep (e' :: entries)).
    rewrite (proj2 (splitFrom_piece e [] He)).
    rewrite IH; [reflexivity | easy |].
    intros x Hx. apply Hall. now right.
Qed.

Lemma forallb_join (c : cls) (entries : list jsstring) :
  forallb c sep = true ->
  (forall e, In e entries -> forallb c e = true) ->
  forallb c (join sep entries) = true.
Proof.
  intros Hsep. induction entries as [|e entries IH]; intros Hall; [reflexivity|].
  assert (He : forallb c e = true) by (apply Hall; now left).
  destruct entries as [|e' entries]; [exact He|].
  change (join sep (e :: e' :: entries))
    with (e ++ sep ++ join sep (e' :: entries)).
  rewrite !forallb_app, He, Hsep. apply IH.
  intros x Hx. apply Hall. now right.
Qed.

End Sections.


(* ================================================================== *)
(** ** Properties of the body parsers *)

(** [findPriority] applies the decision table to the two answers. *)
Lemma findPriority_decide (body : jsstring) :
  findPriority body
  = tierName match parseImpactSignal body with
             | Some (impact, workaround) => decide impact workaround
             | None => TBD
             end.
Proof.
  unfold findPriority, parseImpactSignal.
  destruct (exec priorityRegex body) as [m|]; [|reflexivity].
  set (impact := nth 0 m []). set (blocking := nth 1 m []).
  unfold decide, table. cbn [firstMatch onWorkaround onImpact tier].
  unfold answered, says, any.
  destruct (eqs blocking (lit "No and the platform is unusable")).
  { now destruct (eqs impact (lit "One")). }
  destruct (eqs blocking (lit "No but the platform is still usable")).
  { reflexivity. }
  destruct (eqs blocking (lit "Yes, difficult to implement")).
  { now destruct (eqs impact (lit "All")). }
  destruct (eqs blocking []); [reflexivity|].
  destruct (eqs blocking (lit "_No response_")); [reflexivity|].
  now destruct (eqs impact (lit "All")), (eqs impact (lit "Most (> 50%)")).
Qed.

(** The answers of a templated body are the ones the policy is applied to. *)
Lemma findPriority_section (pre impact blocking post : jsstring) :
  matchesWithin impactHeader pre (impactSection impact blocking ++ post) = false ->
  forallb dot impact = true ->
  forallb dot blocking = true ->
  findPriority (pre ++ impactSection impact blocking ++ post)
  = tierName (decide impact blocking).
Proof.
  intros Hpre Hi Hb. rewrite findPriority_decide.
  unfold parseImpactSignal. now rewrite exec_impactSection.
Qed.

(** The two scenarios of the specification. *)
Example findPriority_all_unusable :
  findPriority (impactSection (lit "All") (lit "No and the platform is unusable"))
  = lit "BLOCKER".
Proof. reflexivity. Qed.

Example findPriority_one_unusable :
  findPriority (impactSection (lit "One") (lit "No and the platform is unusable"))
  = lit "High".
Proof. reflexivity. Qed.

(** A body that is [null] is searched as the text "null". *)
Example parsers_null_body :
  findPlugins (bodyText None) = [] /\ findPlatforms (bodyText None) = []
  /\ findPriority (bodyText None) = lit "TBD".
Proof. repeat split; reflexivity. Qed.

Example projectRegex_acme :
  exec projectRegex (lit "https://github.com/orgs/acme/projects/11/")
  = Some [lit "orgs"; lit "acme"; lit "11"]
  /\ exec projectRegex (lit "github.com/users/jane/projects/7")
     = Some [lit "users"; lit "jane"; lit "7"]
  /\ exec projectRegex (lit "https://github.com/orgs/acme/projects/") = None.
Proof. repeat split; reflexivity. Qed.

Example findPlugins_alpha_beta :
  findPlugins (pluginSection (lit "Alpha, Beta")) = [lit "Alpha"; lit "Beta"].
Proof. reflexivity. Qed.

Lemma findPlugins_no_header (body : jsstring) :
  search pluginHeader body = None -> findPlugins body = [].
Proof.
  intros H. unfold findPlugins, exec, pluginRegex, atoms, anchored.
  now rewrite (search_part [] pluginHeader _ body H : search (pluginHeader ++ _) body = None).
Qed.

Lemma findPlatforms_no_header (body : jsstring) :
  search platformHeader body = None -> findPlatforms body = [].
Proof.
  intros H. unfold findPlatforms, exec, platformRegex, atoms, anchored.
  now rewrite (search_part [] platformHeader _ body H : search (platformHeader ++ _) body = None).
Qed.

Lemma findPriority_no_header (body : jsstring) :
  search impactHeader body = None \/ search workaroundsHeader body = None ->
  findPriority body = lit "TBD".
Proof.
  intros H. unfold findPriority, exec, priorityRegex, atoms, anchored.
  destruct H as [H|H].
  - now rewrite (search_part [] impactHeader _ body H : search (impactHeader ++ _) body = None).
  - rewrite app_assoc. now rewrite (search_part _ workaroundsHeader _ body H).
Qed.

(** C2: [findPriority] is a function of the body (total, deterministic, no
    error in its type) whose result is the tier that the decision table of
    the specification gives for the two answers found in the body: on a
    body whose first Impact / Available workarounds? section holds the
    answers [impact] and [workaround], the tier of the table for these
    answers, and TBD on a body without such a section. *)
Theorem findPriority_decision_table (body : jsstring) :
  findPriority body
  = tierName match parseImpactSignal body with
             | Some (impact, workaround) => decide impact workaround
             | None => TBD
             end
  /\ (forall pre impact workaround post,
         body = pre ++ impactSection impact workaround ++ post ->
         matchesWithin impactHeader pre
           (impactSection impact workaround ++ post) = false ->
         forallb dot impact = true ->
         forallb dot workaround = true ->
         findPriority body = tierName (decide impact workaround))
  /\ (search impactHeader body = None \/ search workaroundsHeader body = None ->
      findPriority body = tierName TBD).
Proof.
  split; [apply findPriority_decide | split].
  - intros pre impact workaround post -> Hpre Hi Hw.
    now apply findPriority_section.
  - apply findPriority_no_header.
Qed.

Lemma findPriority_decision_table_witness :
  findPriority
    (pluginSection (lit "Jetpack")
     ++ impactSection (lit "Most (> 50%)") (lit "Yes, easy to implement")
     ++ lit "### Steps to reproduce")
  = lit "Normal"
  /\ findPriority (lit "The editor crashes when I paste an image.") = lit "TBD".
Proof.
  split.
  - apply (proj1 (proj2 (findPriority_decision_table _))
             (pluginSection (lit "Jetpack")) (lit "Most (> 50%)")
             (lit "Yes, easy to implement") (lit "### Steps to reproduce"));
      reflexivity.
  - apply (proj2 (proj2 (findPriority_decision_table _))).
    left. reflexivity.
Defined.

(** C8: on a body without the headers of the three sections, [findPlugins]
    and [findPlatforms] return the empty list and [findPriority] returns
    TBD; the three are total functions, nothing can be thrown. *)
Theorem parsers_without_markers (body : jsstring) :
  search pluginHeader body = None ->
  search platformHeader body = None ->
  search impactHeader body = None \/ search workaroundsHeader body = None ->
  findPlugins body = [] /\ findPlatforms body = []
  /\ findPriority body = lit "TBD".
Proof.
  intros Hplugin Hplatform Himpact. repeat split.
  - now apply findPlugins_no_header.
  - now apply findPlatforms_no_header.
  - now apply findPriority_no_header.
Qed.

Lemma parsers_without_markers_witness :
  let body := lit "The editor crashes when I paste an image." in
  findPlugins body = [] /\ findPlatforms body = []
  /\ findPriority body = lit "TBD".
Proof.
  apply parsers_without_markers; [reflexivity | reflexivity | left; reflexivity].
Defined.

(** The separator is a comma followed by a space: values written with a
    bare comma between them are one entry. *)
Example findPlatforms_separator :
  findPlatforms (platformSection (lit "Simple, Atomic,Self-hosted"))
  = [lit "Simple"; lit "Atomic,Self-hosted"].
Proof. reflexivity. Qed.

(** C9: [findPlatforms] never returns the entry "Self-hosted" nor a blank
    entry, and on a body whose platform section lists the values [entries],
    separated by a comma and a space, it returns these values in their
    order without the entries "Self-hosted" and the blank ones. *)
Theorem findPlatforms_drops_self_hosted (body : jsstring) :
  ~ In (lit "Self-hosted") (findPlatforms body)
  /\ (forall e, In e (findPlatforms body) -> trim e <> [])
  /\ (forall pre entries post,
        body = pre ++ platformSection (join (lit ", ") entries) ++ post ->
        matchesWithin platformHeader pre
          (platformSection (join (lit ", ") entries) ++ post) = false ->
        (forall e, In e entries -> forallb platformChar e = true /\ ~ In 44 e) ->
        findPlatforms body = filter keptPlatform entries).
Proof.
  split; [|split].
  - unfold findPlatforms. destruct (exec platformRegex body); [|easy].
    intros H. apply filter_In in H as [_ H].
    now rewrite eqs_refl in H.
  - unfold findPlatforms. destruct (exec platformRegex body); [|easy].
    intros e H. apply filter_In in H as [_ H].
    apply andb_true_iff in H as [_ H]. unfold nonBlank in H.
    intros E. now rewrite E in H.
  - intros pre entries post -> Hpre Hentries.
    unfold findPlatforms.
    rewrite exec_platformSection; [|assumption|].
    + cbn [nth]. destruct entries as [|e entries]; [reflexivity|].
      rewrite split_join; [reflexivity | easy |].
      intros x Hx. now apply Hentries.
    + apply forallb_join; [reflexivity|].
      intros x Hx. now apply Hentries.
Qed.

Lemma findPlatforms_drops_self_hosted_witness :
  findPlatforms
    (pluginSection (lit "Jetpack")
     ++ platformSection (lit "Simple, Self-hosted, Atomic")
     ++ lit "### Steps to reproduce")
  = [lit "Simple"; lit "Atomic"].
Proof.
  apply (proj2 (proj2 (findPlatforms_drops_self_hosted _))
           (pluginSection (lit "Jetpack"))
           [lit "Simple"; lit "Self-hosted"; lit "Atomic"]
           (lit "### Steps to reproduce")).
  - reflexivity.
  - vm_compute. reflexivity.
  - intros e [<-|[<-|[<-|[]]]]; (split; [reflexivity|]);
      cbn; intuition discriminate.
Defined.

(* ================================================================== *)
(** ** Runs: events and outcomes *)

Section MonadFacts.

Context {A B : Type}.

Lemma bind_Return (m : M A) (k : A -> M B) (a : A) :
  result m = Return a ->
  trace (bind m k) = trace m ++ trace (k a)
  /\ result (bind m k) = result (k a).
Proof.
  destruct m as [t [a'|e]]; simpl; [|discriminate].
  intros [= ->]. now destruct (k a).
Qed.

Lemma bind_Throw (m : M A) (k : A -> M B) (e : exn) :
  result m = Throw e ->
  trace (bind m k) = trace m /\ result (bind m k) = Throw e.
Proof.
  destruct m as [t [a'|e']]; simpl; [discriminate|].
  now intros [= ->].
Qed.

Lemma always_bind (Q : event -> Prop) (m : M A) (k : A -> M B) :
  always Q m ->
  (forall a, result m = Return a -> always Q (k a)) ->
  always Q (bind m k).
Proof.
  unfold always. intros Hm Hk.
  destruct (result m) as [a|e] eqn:Hr.
  - destruct (bind_Return m k a Hr) as [-> _].
    apply Forall_app. split; [exact Hm | now apply Hk].
  - now destruct (bind_Throw m k e Hr) as [-> _].
Qed.

Lemma always_pure (Q : event -> Prop) (m : M A) :
  trace m = [] -> always Q m.
Proof. unfold always. intros ->. constructor. Qed.

Lemma pure_bind (m : M A) (k : A -> M B) :
  trace m = [] -> (forall a, trace (k a) = []) -> trace (bind m k) = [].
Proof.
  intros Hm Hk. destruct (result m) as [a|e] eqn:Hr.
  - destruct (bind_Return m k a Hr) as [-> _]. now rewrite Hm, Hk.
  - now destruct (bind_Throw m k e Hr) as [-> _].
Qed.

Lemma result_bind_inv (m : M A) (k : A -> M B) (b : B) :
  result (bind m k) = Return b ->
  exists a, result m = Return a /\ result (k a) = Return b.
Proof.
  destruct m as [t [a|e]]; cbn.
  - intros H. exists a. split; [reflexivity|]. now destruct (k a).
  - discriminate.
Qed.

End MonadFacts.

Section PureSteps.

Lemma getProp_pure v k : trace (getProp v k) = [].
Proof. now destruct v. Qed.

Lemma optChain_pure v rest :
  (forall x, trace (rest x) = []) -> trace (optChain v rest) = [].
Proof. intros H. unfold optChain. now destruct (nullish v). Qed.

Lemma findByName_pure name items : trace (findByName name items) = [].
Proof.
  induction items as [|x items IH]; [reflexivity|].
  cbn [findByName]. apply pure_bind; [apply getProp_pure|].
  intros n. now destruct (strictEqStr n name).
Qed.

Lemma arrayFindByName_pure v name : trace (arrayFindByName v name) = [].
Proof. destruct v; try reflexivity. apply findByName_pure. Qed.

Lemma interpolate_pure v : trace (interpolate v) = [].
Proof. unfold interpolate. now destruct (stringifies v). Qed.

Lemma readGlobal_pure env name : trace (readGlobal env name) = [].
Proof. unfold readGlobal. now destruct (globalThis env name). Qed.

Lemma nodeProjectV2_pure v k : trace (nodeProjectV2 v k) = [].
Proof.
  unfold nodeProjectV2. apply pure_bind; [apply getProp_pure|].
  intros node. apply optChain_pure. intros n.
  apply pure_bind; [apply getProp_pure | intros; apply getProp_pure].
Qed.

Lemma organizationProjectId_pure v : trace (organizationProjectId v) = [].
Proof.
  unfold organizationProjectId. apply pure_bind; [apply getProp_pure|].
  intros o. apply optChain_pure. intros n.
  apply pure_bind; [apply getProp_pure | intros; apply getProp_pure].
Qed.

Lemma organizationProjectFields_pure v :
  trace (organizationProjectFields v) = [].
Proof.
  unfold organizationProjectFields.
  repeat (apply pure_bind; [apply getProp_pure | intros ?]).
  apply getProp_pure.
Qed.

Lemma organizationPriorityField_pure v :
  trace (organizationPriorityField v) = [].
Proof.
  unfold organizationPriorityField. apply pure_bind; [apply getProp_pure|].
  intros o. apply optChain_pure. intros n.
  repeat (apply pure_bind; [apply getProp_pure | intros ?]).
  apply arrayFindByName_pure.
Qed.

End PureSteps.

(** Steps that leave no event. *)
Ltac pure_step :=
  first [ apply getProp_pure | apply readGlobal_pure | apply nodeProjectV2_pure
        | apply interpolate_pure
        | apply arrayFindByName_pure | apply organizationProjectId_pure
        | apply organizationProjectFields_pure
        | apply organizationPriorityField_pure
        | apply optChain_pure; intros ?; apply getProp_pure
        | reflexivity ].

Section RemoteSteps.

Context {env : Env} (Q : event -> Prop).

Lemma always_callGraphql req :
  Q (Graphql req) -> always Q (callGraphql env req).
Proof. intros H. unfold always. cbn. now constructor. Qed.

Lemma always_callGetLabels owner repo number :
  Q (GetLabels owner repo number) ->
  always Q (callGetLabels env owner repo number).
Proof. intros H. unfold always. cbn. now constructor. Qed.

Lemma always_callAddLabels owner repo number labels :
  Q (AddLabels owner repo number labels) ->
  always Q (callAddLabels env owner repo number labels).
Proof. intros H. unfold always. cbn. now constructor. Qed.

End RemoteSteps.

(** The closure of [always] under the sequencing of a run. *)
Ltac run_steps :=
  repeat first
    [ apply always_pure; pure_step
    | apply always_bind; [ | intros ? ? ]
    | apply always_callGraphql
    | apply always_callGetLabels
    | apply always_callAddLabels
    | match goal with
      | |- always _ (if ?b then _ else _) => destruct b
      | |- always _ (match ?o with Some _ => _ | None => _ end) => destruct o
      end ].

Section Runs.

Variable env : Env.

Lemma getItemNodeId_result (nodeId x : jsstring) :
  result (getItemNodeId env nodeId) = Return x -> x = fixedItemNodeId.
Proof.
  unfold getItemNodeId. intros H.
  repeat (apply result_bind_inv in H as (? & _ & H)).
  cbn in H. now injection H as <-.
Qed.

(** [getItemNodeId] on an answer that the two debug lines can print. *)
Lemma getItemNodeId_answers (nodeId : jsstring) data :
  graphql env (GetIssueProjectDetails nodeId) = Return data ->
  stringifies (VObj data) = true ->
  stringifies (issueProjectItems data) = true ->
  getItemNodeId env nodeId
  = ([Graphql (GetIssueProjectDetails nodeId)], Return fixedItemNodeId).
Proof.
  intros H Hdata Hitems. unfold getItemNodeId, callGraphql. rewrite H.
  unfold issueProjectItems in Hitems.
  cbn [bind]. unfold interpolate at 1. rewrite Hdata.
  cbn [bind ret getProp app]. unfold optChain.
  destruct (nullish (lookup "node" data)) eqn:Hnode.
  - cbn [bind ret app]. unfold interpolate. rewrite Hitems. reflexivity.
  - destruct (lookup "node" data) eqn:Hn; try discriminate;
      cbn [getProp bind ret app member] in *;
      unfold interpolate; rewrite ?Hitems; reflexivity.
Qed.

(** And on an answer that they cannot print. *)
Lemma getItemNodeId_unprintable (nodeId : jsstring) data :
  graphql env (GetIssueProjectDetails nodeId) = Return data ->
  stringifies (VObj data) = false
  \/ stringifies (issueProjectItems data) = false ->
  getItemNodeId env nodeId
  = ([Graphql (GetIssueProjectDetails nodeId)], Throw (TypeError "toString")).
Proof.
  intros H Hbad. unfold getItemNodeId, callGraphql. rewrite H.
  unfold issueProjectItems in Hbad.
  cbn [bind]. unfold interpolate at 1.
  destruct (stringifies (VObj data)) eqn:Hdata; [|reflexivity].
  destruct Hbad as [Hbad|Hbad]; [discriminate|].
  cbn [bind ret getProp app]. unfold optChain.
  destruct (nullish (lookup "node" data)) eqn:Hnode.
  - discriminate.
  - destruct (lookup "node" data) eqn:Hn; try discriminate;
      cbn [getProp bind ret app member] in *;
      unfold interpolate; rewrite ?Hbad; try reflexivity; discriminate.
Qed.

Lemma syncBoard_events (payload : Payload) (link : jsstring) :
  always isGraphql (syncBoard env payload link).
Proof.
  unfold syncBoard, getProjectDetails, getItemNodeId, updateProjectField.
  run_steps; exact I.
Qed.

Lemma reconcileLabels_events (payload : Payload) :
  always isLabelCall (reconcileLabels env payload).
Proof.
  unfold reconcileLabels, hasPriorityLabels, isBug, addTriageLabels.
  run_steps; exact I.
Qed.

Lemma syncBoard_targets (payload : Payload) (link : jsstring) :
  always targetsFixedItem (syncBoard env payload link).
Proof.
  unfold syncBoard.
  apply always_bind.
  { unfold getProjectDetails. run_steps; exact I. }
  intros projectInfo _.
  apply always_bind; [now apply always_callGraphql|]. intros isInProject _.
  do 5 (apply always_bind; [apply always_pure; pure_step | intros ? _]).
  apply always_bind.
  { unfold getItemNodeId. run_steps; exact I. }
  intros itemNodeId Hitem. apply getItemNodeId_result in Hitem as ->.
  unfold updateProjectField. run_steps. reflexivity.
Qed.

Lemma triageIssues_targets (payload : Payload) :
  always targetsFixedItem (triageIssues env payload).
Proof.
  unfold triageIssues.
  destruct (eqs (getInput env "project_automation_token") []).
  { unfold always. cbn. now repeat constructor. }
  destruct (eqs (getInput env "project_board") []).
  { unfold always. cbn. now repeat constructor. }
  apply always_bind; [apply syncBoard_targets|]. intros _ _.
  unfold reconcileLabels, hasPriorityLabels, isBug, addTriageLabels.
  run_steps; exact I.
Qed.

End Runs.

(** C10: whatever the issue and whatever the answer to its query,
    [getItemNodeId] returns the same identity, and every update of a board
    field that a run issues is aimed at the item of that identity.  The
    answers are those that the two debug lines can print: neither the
    answer nor its [node?.projectItems] has a member [toString] of its own,
    as is the case of every answer to the query, whose members are the
    fields that the query names. *)
Theorem getItemNodeId_is_fixed (env : Env) (payload : Payload)
        (nodeId : jsstring) :
  (forall data,
      graphql env (GetIssueProjectDetails nodeId) = Return data ->
      stringifies (VObj data) = true ->
      stringifies (issueProjectItems data) = true ->
      result (getItemNodeId env nodeId)
      = Return (lit "PVTI_lADOCGvWfc4AUwHEzgI4tDo"))
  /\ (forall fieldId itemId projectId optionId,
         In (Graphql (UpdateProjectV2ItemFieldValue fieldId itemId projectId optionId))
            (trace (triageIssues env payload)) ->
         itemId = VStr (lit "PVTI_lADOCGvWfc4AUwHEzgI4tDo")).
Proof.
  split.
  - intros data H Hdata Hitems.
    now rewrite (getItemNodeId_answers env nodeId data H Hdata Hitems).
  - intros fieldId itemId projectId optionId Hin.
    pose proof (triageIssues_targets env payload) as H.
    unfold always in H. rewrite Forall_forall in H.
    exact (H _ Hin).
Qed.

(* ================================================================== *)
(** ** Configuration *)

(** C7: when the project automation token or the link to the project board
    is missing, the run reports the failure and returns: its only effect is
    the report, no remote call is made. *)
Theorem missing_configuration_aborts (env : Env) (payload : Payload) :
  getInput env "project_automation_token" = []
  \/ getInput env "project_board" = [] ->
  result (triageIssues env payload) = Return tt
  /\ exists msg, trace (triageIssues env payload) = [SetFailed msg].
Proof.
  intros H. unfold triageIssues.
  destruct (eqs (getInput env "project_automation_token") []) eqn:Htoken.
  { split; [reflexivity | eexists; reflexivity]. }
  destruct H as [H|H].
  { rewrite H in Htoken. discriminate. }
  rewrite H. cbn [eqs].
  split; [reflexivity | eexists; reflexivity].
Qed.

(* ================================================================== *)
(** ** Failures of the board chain *)

Section FailStop.

Variable env : Env.

Lemma failStop_bind {A B} (m : M A) (k : A -> M B) :
  failStop env m ->
  (forall a, result m = Return a -> failStop env (k a)) ->
  failStop env (bind m k).
Proof.
  intros Hm Hk req e Hin Hreq.
  case_eq (result m); [intros a Hr | intros e0 Hr].
  - destruct (bind_Return m k a Hr) as [Ht ->]. rewrite Ht in Hin.
    apply in_app_or in Hin as [Hin|Hin].
    + rewrite (Hm req e Hin Hreq) in Hr. discriminate.
    + exact (Hk a Hr req e Hin Hreq).
  - destruct (bind_Throw m k e0 Hr) as [Ht ->]. rewrite Ht in Hin.
    rewrite (Hm req e Hin Hreq) in Hr. now injection Hr as <-.
Qed.

Lemma failStop_pure {A} (m : M A) : trace m = [] -> failStop env m.
Proof. intros H req e Hin. rewrite H in Hin. destruct Hin. Qed.

Lemma failStop_callGraphql req : failStop env (callGraphql env req).
Proof.
  intros req' e [[= <-]|[]] Hreq. unfold callGraphql. cbn. now rewrite Hreq.
Qed.

Ltac failStop_steps :=
  repeat first
    [ apply failStop_pure; pure_step
    | apply failStop_bind; [ | intros ? ? ]
    | apply failStop_callGraphql
    | match goal with
      | |- failStop _ (if ?b then _ else _) => destruct b
      | |- failStop _ (match ?o with Some _ => _ | None => _ end) => destruct o
      end ].

Lemma syncBoard_failStop (payload : Payload) (link : jsstring) :
  failStop env (syncBoard env payload link).
Proof.
  unfold syncBoard, getProjectDetails, getItemNodeId, updateProjectField.
  failStop_steps.
Qed.

End FailStop.

(** C4, as the code has it: no failure of the board chain is caught.  When
    a request of the chain (the fetch of the board, the look-up of the
    issue in the project, the resolution of the item, the update of the
    field) is rejected, the run ends with that very failure, and it has
    made no call to the label API: its events are GraphQL requests only. *)
Theorem board_failure_aborts (env : Env) (payload : Payload)
        (req : request) (e : exn) :
  In (Graphql req) (trace (triageIssues env payload)) ->
  graphql env req = Throw e ->
  result (triageIssues env payload) = Throw e
  /\ always isGraphql (triageIssues env payload).
Proof.
  unfold triageIssues.
  destruct (eqs (getInput env "project_automation_token") []).
  { intros [[=]|[]]. }
  destruct (eqs (getInput env "project_board") []).
  { intros [[=]|[]]. }
  set (link := getInput env "project_board").
  intros Hin Hreq.
  pose proof (syncBoard_failStop env payload link) as Hstop.
  pose proof (syncBoard_events env payload link) as Hsync.
  case_eq (result (syncBoard env payload link)); [intros u Hr | intros e0 Hr].
  - exfalso.
    destruct (bind_Return _ (fun _ => reconcileLabels env payload) u Hr)
      as [Ht _].
    rewrite Ht in Hin. apply in_app_or in Hin as [Hin|Hin].
    + rewrite (Hstop req e Hin Hreq) in Hr. discriminate.
    + pose proof (reconcileLabels_events env payload) as Hl.
      unfold always in Hl. rewrite Forall_forall in Hl.
      exact (Hl _ Hin).
  - destruct (bind_Throw _ (fun _ => reconcileLabels env payload) e0 Hr)
      as [Ht Hres].
    rewrite Ht in Hin. rewrite (Hstop req e Hin Hreq) in Hr.
    injection Hr as <-. split; [exact Hres|].
    unfold always. now rewrite Ht.
Qed.

(* ================================================================== *)
(** ** Priority labels *)

Section PriorityLabels.

Variable env : Env.
Variable payload : Payload.

Let body := bodyText (issue_body payload).

Lemma addedLabels_app (t1 t2 : list event) :
  addedLabels (t1 ++ t2) = addedLabels t1 ++ addedLabels t2.
Proof. apply flat_map_app. Qed.

Lemma addedLabels_graphql (t : list event) :
  Forall isGraphql t -> addedLabels t = [].
Proof.
  induction 1 as [|ev t Hev _ IH]; [reflexivity|].
  destruct ev; try easy.
Qed.

Lemma prefixed_not_priority (prefix : jsstring) (names : list jsstring) :
  (forall x, isPriorityLabel (prefix ++ x) = false) ->
  filter isPriorityLabel (map (fun x => prefix ++ x) names) = [].
Proof.
  intros H. induction names as [|x names IH]; [reflexivity|].
  cbn [map filter]. now rewrite H.
Qed.

Lemma plugin_not_priority (names : list jsstring) :
  filter isPriorityLabel (map (fun x => lit "[Plugin] " ++ x) names) = [].
Proof. now apply prefixed_not_priority. Qed.

Lemma platform_not_priority (names : list jsstring) :
  filter isPriorityLabel (map (fun x => lit "[Platform] " ++ x) names) = [].
Proof. now apply prefixed_not_priority. Qed.

Lemma isNewIssue_not_labeled (a : jsstring) :
  isNewIssue a = true -> eqs (lit "labeled") a = false.
Proof.
  unfold isNewIssue. intros H. apply orb_true_iff in H as [H|H];
    apply eqs_eq in H; now subst a.
Qed.

(** The labels step adds at most the label of the computed priority, and
    only to a new issue that is a bug and has no priority label. *)
Lemma addTriageLabels_priority (priorityLabels : list jsstring)
      (priority : jsstring) (isBugIssue : bool) :
  let added :=
    filter isPriorityLabel
      (addedLabels (trace (addTriageLabels env payload priorityLabels
                             priority isBugIssue))) in
  added = []
  \/ (added = [lit "[Pri] " ++ priority]
      /\ isNewIssue (action payload) = true
      /\ priorityLabels = [] /\ isBugIssue = true).
Proof.
  unfold addTriageLabels.
  destruct (isNewIssue (action payload)); [|now left].
  set (plugins := map (fun x => lit "[Plugin] " ++ x) (findPlugins _)).
  set (platforms := map (fun x => lit "[Platform] " ++ x) (findPlatforms _)).
  assert (Hplugins : filter isPriorityLabel plugins = [])
    by apply plugin_not_priority.
  assert (Hplatforms : filter isPriorityLabel platforms = [])
    by apply platform_not_priority.
  unfold callAddLabels, ret.
  destruct priorityLabels as [|p ps], isBugIssue;
    cbn [List.length Nat.eqb andb];
    repeat (match goal with
            | |- context [bind (if ?c then _ else _) _] => destruct c
            | |- context [addLabels env ?a ?b ?c ?d] =>
                destruct (addLabels env a b c d)
            end; cbn [bind]);
    cbn [trace fst app addedLabels flat_map];
    rewrite ?filter_app, ?app_nil_r, ?Hplugins, ?Hplatforms;
    cbn [app filter];
    try (now left);
    (destruct (isPriorityLabel (lit "[Pri] " ++ priority));
     [now right | now left]).
Qed.

Variable ls : list jsstring.
Hypothesis labels_of_issue :
  getLabels env (owner_login payload) (repo_name payload)
            (issue_number payload) = Return ls.

Lemma reconcileLabels_added :
  addedLabels (trace (reconcileLabels env payload))
  = addedLabels
      (trace (addTriageLabels env payload
                (currentPriorityLabels ls (action payload) (label_name payload))
                (findPriority body)
                (isBugType ls (action payload) (label_name payload)))).
Proof.
  unfold reconcileLabels, hasPriorityLabels, isBug, callGetLabels.
  rewrite labels_of_issue.
  unfold isBugType, currentPriorityLabels. fold body.
  cbn [bind ret].
  destruct (includes ls (lit "[Type] Bug")); cbn [orb bind ret].
  - now destruct (addTriageLabels env payload _ _ true).
  - destruct (eqs (lit "labeled") (action payload) && _); cbn [bind ret].
    + now destruct (addTriageLabels env payload _ _ true).
    + now destruct (addTriageLabels env payload _ _ false).
Qed.

Lemma triageIssues_added :
  addedLabels (trace (triageIssues env payload)) = []
  \/ addedLabels (trace (triageIssues env payload))
     = addedLabels
         (trace (addTriageLabels env payload
                   (currentPriorityLabels ls (action payload) (label_name payload))
                   (findPriority body)
                   (isBugType ls (action payload) (label_name payload)))).
Proof.
  unfold triageIssues.
  destruct (eqs (getInput env "project_automation_token") []); [now left|].
  destruct (eqs (getInput env "project_board") []); [now left|].
  set (link := getInput env "project_board").
  pose proof (syncBoard_events env payload link) as Hsync.
  case_eq (result (syncBoard env payload link)); [intros u Hr | intros e Hr].
  - right.
    destruct (bind_Return _ (fun _ => reconcileLabels env payload) u Hr)
      as [-> _].
    rewrite addedLabels_app, (addedLabels_graphql _ Hsync).
    apply reconcileLabels_added.
  - left.
    destruct (bind_Throw _ (fun _ => reconcileLabels env payload) e Hr)
      as [-> _].
    now apply addedLabels_graphql.
Qed.

End PriorityLabels.

(** C5: let [ls] be the labels of the issue.  If one of them is a priority
    label, or the event is the addition of a priority label, the run adds
    no priority label; a run adds a priority label only to a new issue
    (opened or reopened) that carries "[Type] Bug" and no priority label,
    and then it adds exactly the label of the computed priority; so an issue
    with at most one priority label has at most one after the run. *)
Theorem at_most_one_priority_label (env : Env) (payload : Payload)
        (ls : list jsstring) :
  getLabels env (owner_login payload) (repo_name payload)
            (issue_number payload) = Return ls ->
  ((exists l, In l ls /\ isPriorityLabel l = true)
   \/ (action payload = lit "labeled"
       /\ exists l, label_name payload = Some l /\ isPriorityLabel l = true) ->
   addedPriorityLabels env payload = [])
  /\ (addedPriorityLabels env payload <> [] ->
      isNewIssue (action payload) = true
      /\ includes ls (lit "[Type] Bug") = true
      /\ filter isPriorityLabel ls = []
      /\ addedPriorityLabels env payload
         = [lit "[Pri] " ++ findPriority (bodyText (issue_body payload))])
  /\ ((List.length (filter isPriorityLabel ls) <= 1)%nat ->
      (List.length
         (filter isPriorityLabel
            (ls ++ addedLabels (trace (triageIssues env payload)))) <= 1)%nat).
Proof.
  intros Hls. unfold addedPriorityLabels.
  rewrite filter_app.
  destruct (triageIssues_added env payload ls Hls) as [-> | ->].
  { cbn [filter]. rewrite app_nil_r. repeat split; easy. }
  destruct (addTriageLabels_priority env payload
              (currentPriorityLabels ls (action payload) (label_name payload))
              (findPriority (bodyText (issue_body payload)))
              (isBugType ls (action payload) (label_name payload)))
    as [-> | (-> & Hnew & Hnone & Hbug)].
  { rewrite app_nil_r. repeat split; easy. }
  pose proof (isNewIssue_not_labeled _ Hnew) as Hlabeled.
  unfold currentPriorityLabels in Hnone. unfold isBugType in Hbug.
  rewrite Hlabeled in Hnone, Hbug. cbn [andb] in Hnone, Hbug.
  rewrite orb_false_r in Hbug.
  split; [|split].
  - intros [(l & Hin & Hl) | (Haction & _)]; exfalso.
    + assert (H : In l (filter isPriorityLabel ls)) by now apply filter_In.
      now rewrite Hnone in H.
    + rewrite Haction in Hnew. discriminate.
  - intros _. repeat split; assumption.
  - intros _. rewrite Hnone. cbn. lia.
Qed.

(** A label "[Pri] ..." on one line is a priority label. *)
Lemma pri_prefix_is_priority_label (rest : jsstring) :
  forallb dot rest = true -> isPriorityLabel (lit "[Pri] " ++ rest) = true.
Proof.
  intros Hrest. unfold isPriorityLabel, matches, exec, priRegex, atoms, anchored.
  erewrite matchHere_Lit by (cbn; reflexivity).
  change (matchHere [Rep 0 dot false; Eos] (32 :: rest))
    with (repeat 0 dot false (matchHere [Eos]) O [] (32 :: rest)).
  rewrite <- (app_nil_r (32 :: rest)).
  rewrite (repeat_greedy 0 dot false (matchHere [Eos]) (32 :: rest) [] []);
    [reflexivity | exact Hrest | exact I | reflexivity | cbn; lia].
Qed.


Lemma missing_configuration_aborts_witness :
  result (triageIssues worldWithoutToken opened) = Return tt
  /\ exists msg, trace (triageIssues worldWithoutToken opened) = [SetFailed msg].
Proof.
  apply missing_configuration_aborts. left. reflexivity.
Defined.

(** An answer with a member [toString]: the debug line throws. *)
Example getItemNodeId_toString_member :
  getItemNodeId
    {| getInput := fun _ => [];
       graphql := fun _ =>
         Return [("node",
                  VObj [("projectItems", VObj [("toString", VNum 1)])])];
       getLabels := fun _ _ _ => Return [];
       addLabels := fun _ _ _ _ => Return tt;
       globalThis := fun _ => None |}
    (lit "I_kwDOissue42")
  = ([Graphql (GetIssueProjectDetails (lit "I_kwDOissue42"))],
     Throw (TypeError "toString")).
Proof. reflexivity. Qed.

Lemma getItemNodeId_is_fixed_witness :
  result (getItemNodeId
            (world boardLink allOptions (Some (VStr (lit "PVT_kwDOCGvWfc4AUwHE")))
                   [lit "[Type] Bug"])
            (lit "I_kwDOissue42"))
  = Return (lit "PVTI_lADOCGvWfc4AUwHEzgI4tDo")
  /\ VStr fixedItemNodeId = VStr (lit "PVTI_lADOCGvWfc4AUwHEzgI4tDo").
Proof.
  pose proof (getItemNodeId_is_fixed
                (world boardLink allOptions
                       (Some (VStr (lit "PVT_kwDOCGvWfc4AUwHE")))
                       [lit "[Type] Bug"])
                opened (lit "I_kwDOissue42")) as [Hquery Hupdate].
  split.
  - eapply Hquery; reflexivity.
  - apply (Hupdate (VStr (lit "PVTSSF_priority")) (VStr fixedItemNodeId)
                   (VStr (lit "PVT_kwDOCGvWfc4AUwHE")) (VStr (lit "opt_low"))).
    vm_compute. tauto.
Defined.

Lemma board_failure_aborts_witness :
  result (triageIssues (worldWithoutBoard [lit "[Type] Bug"]) opened)
  = Throw unreachable
  /\ always isGraphql (triageIssues (worldWithoutBoard [lit "[Type] Bug"]) opened).
Proof.
  apply (board_failure_aborts (worldWithoutBoard [lit "[Type] Bug"]) opened
           (GetProject (lit "johns-test-org") 11) unreachable).
  - vm_compute. tauto.
  - reflexivity.
Defined.

(** It does not hold: when the board cannot be fetched, the run on the
    opened bug report ends with the failure of the request, after that
    single request. *)
Lemma board_failure_is_not_caught : ~ board_failure_is_caught.
Proof.
  intros H.
  destruct (H (worldWithoutBoard [lit "[Type] Bug"]) opened
              (GetProject (lit "johns-test-org") 11) unreachable) as [Hres _].
  - reflexivity.
  - vm_compute. tauto.
  - reflexivity.
  - apply Hres. reflexivity.
Qed.

Example board_failure_run :
  triageIssues (worldWithoutBoard [lit "[Type] Bug"]) opened
  = ([Graphql (GetProject (lit "johns-test-org") 11)], Throw unreachable)
  /\ findPlugins bugReport = [lit "Jetpack"; lit "Boost"].
Proof. split; reflexivity. Qed.

Lemma at_most_one_priority_label_witness :
  let env := world boardLink allOptions (Some (VStr (lit "PVT_kwDOCGvWfc4AUwHE")))
                   [lit "[Type] Bug"; lit "[Pri] High"] in
  addedPriorityLabels env opened = []
  /\ (List.length
        (filter isPriorityLabel
           ([lit "[Type] Bug"; lit "[Pri] High"]
            ++ addedLabels (trace (triageIssues env opened)))) <= 1)%nat.
Proof.
  intros env.
  destruct (at_most_one_priority_label env opened
              [lit "[Type] Bug"; lit "[Pri] High"] eq_refl)
    as (Hnone & _ & Hinv).
  split.
  - apply Hnone. left. exists (lit "[Pri] High").
    split; [right; left; reflexivity | reflexivity].
  - apply Hinv. vm_compute. lia.
Defined.

(** With a bug report that has no priority label yet, the label of the
    computed priority is added, once the board has been updated. *)
Example priority_label_added :
  addedLabels
    (trace (triageIssues
              (world boardLink allOptions
                     (Some (VStr (lit "PVT_kwDOCGvWfc4AUwHE")))
                     [lit "[Type] Bug"])
              opened))
  = [lit "[Plugin] Jetpack"; lit "[Plugin] Boost"; lit "[Platform] Simple";
     lit "[Pri] BLOCKER"].
Proof. reflexivity. Qed.

(* ================================================================== *)
(** ** Where the code departs from the specification *)

(** C1: the board does not mirror the computed priority.  On the opened
    bug report the computed priority is BLOCKER.  Under Node.js the run
    stops with a ReferenceError on [projectNodeId], before any update of the
    board; where the global object does hold a [projectNodeId], the update
    that is issued selects the option named "Low". *)
Theorem board_update_selects_Low :
  findPriority bugReport = lit "BLOCKER"
  /\ triageIssues (world boardLink allOptions None [lit "[Type] Bug"]) opened
     = ([Graphql (GetProject (lit "johns-test-org") 11);
         Graphql (GetProjectNumber (lit "I_kwDOissue42") 11);
         Graphql (GetIssueProjectDetails (lit "I_kwDOissue42"))],
        Throw (ReferenceError "projectNodeId"))
  /\ boardUpdates
       (trace (triageIssues
                 (world boardLink allOptions
                        (Some (VStr (lit "PVT_kwDOCGvWfc4AUwHE")))
                        [lit "[Type] Bug"])
                 opened))
     = [UpdateProjectV2ItemFieldValue
          (VStr (lit "PVTSSF_priority")) (VStr fixedItemNodeId)
          (VStr (lit "PVT_kwDOCGvWfc4AUwHE")) (VStr (lit "opt_low"))].
Proof. repeat split; reflexivity. Qed.

(** C3: a link that is not the link of a project board.  The pattern does
    not match and [getProjectDetails] answers an empty object, without a
    request; the run goes on with the two look-ups of the issue, and is
    ended by the TypeError of reading [id] in the missing [priority]: no
    label call is made, although the body names two plugins. *)
Theorem invalid_board_link_aborts :
  let env := world (lit "https://github.com/orgs/acme") allOptions None
                   [lit "[Type] Bug"] in
  exec projectRegex (lit "https://github.com/orgs/acme") = None
  /\ getProjectDetails env (lit "https://github.com/orgs/acme")
     = ([], Return (VObj []))
  /\ triageIssues env opened
     = ([Graphql (GetProjectNumber (lit "I_kwDOissue42") 11);
         Graphql (GetIssueProjectDetails (lit "I_kwDOissue42"))],
        Throw (TypeError "id"))
  /\ findPlugins bugReport = [lit "Jetpack"; lit "Boost"].
Proof. repeat split; reflexivity. Qed.

(** C6: a board whose Priority field has no option "Low".  No update is
    issued, but the run does not go on either: where the global object
    holds a [projectNodeId], reading [id] in the option that was not found
    is a TypeError; under Node.js the ReferenceError comes first.  In both
    cases no label call is made. *)
Theorem missing_option_aborts :
  triageIssues
    (world boardLink optionsWithoutLow
           (Some (VStr (lit "PVT_kwDOCGvWfc4AUwHE"))) [lit "[Type] Bug"])
    opened
  = ([Graphql (GetProject (lit "johns-test-org") 11);
      Graphql (GetProjectNumber (lit "I_kwDOissue42") 11);
      Graphql (GetIssueProjectDetails (lit "I_kwDOissue42"))],
     Throw (TypeError "id"))
  /\ triageIssues (world boardLink optionsWithoutLow None [lit "[Type] Bug"])
                  opened
     = ([Graphql (GetProject (lit "johns-test-org") 11);
         Graphql (GetProjectNumber (lit "I_kwDOissue42") 11);
         Graphql (GetIssueProjectDetails (lit "I_kwDOissue42"))],
        Throw (ReferenceError "projectNodeId")).
Proof. split; reflexivity. Qed.

(* ================================================================== *)
(** ** Further properties of the parsers *)

Section ParserFacts.

(** A quantified class fails when the rest of the pattern fails after
    every run of the class at the beginning of the text. *)
Lemma repeat_fails (min : nat) (c : cls) (grp : bool) (k : cont) :
  forall s n acc,
    (forall p q, s = p ++ q -> forallb c p = true -> k q = None) ->
    repeat min c grp k n acc s = None.
Proof.
  assert (Hfin : forall s n acc, k s = None -> finish min grp n acc k s = None).
  { intros s n acc H. unfold finish. rewrite H. now destruct (Nat.leb min n). }
  induction s as [|x s IH]; intros n acc Hk; cbn [repeat].
  - apply Hfin. now apply (Hk [] []).
  - assert (Hhere : finish min grp n acc k (x :: s) = None)
      by (apply Hfin; now apply (Hk [] (x :: s))).
    destruct (c x) eqn:Hx; [|exact Hhere].
    rewrite IH; [exact Hhere|].
    intros p q -> Hp. apply (Hk (x :: p) q); [reflexivity|].
    cbn [forallb]. now rewrite Hx.
Qed.

(** After a run of the class [c], which has no line feed, and a character
    [x] that is neither in [c] nor a line feed, every way of cutting the
    text after some characters of [c] leaves a text that does not start
    with a line feed. *)
Lemma cut_in_run (c : cls) (good : jsstring) (x : N) (rest p q : jsstring) :
  c LF = false -> c x = false -> x <> LF ->
  forallb c good = true ->
  good ++ x :: rest = p ++ q -> forallb c p = true ->
  exists y q', q = y :: q' /\ y <> LF.
Proof.
  intros Hlf Hx Hxlf. revert p.
  induction good as [|g good IH]; intros p Hgood E Hp.
  - destruct p as [|y p]; cbn in E.
    + subst q. now exists x, rest.
    + injection E as <- _. cbn in Hp. now rewrite Hx in Hp.
  - cbn in Hgood. apply andb_true_iff in Hgood as [Hg Hgood].
    destruct p as [|y p]; cbn in E.
    + subst q. exists g, (good ++ x :: rest). split; [reflexivity|].
      intros ->. now rewrite Hlf in Hg.
    + injection E as <- E. cbn in Hp. apply andb_true_iff in Hp as [_ Hp].
      now apply (IH p).
Qed.

(** The list of a section is not read when a character that the class of
    the list does not have, other than a line feed, comes before the end
    of its line. *)
Lemma list_with_foreign_character (c : cls) (good : jsstring) (x : N)
      (rest : jsstring) :
  c LF = false -> c x = false -> x <> LF ->
  forallb c good = true ->
  matchHere [Rep 0 c true; Lit (nl ++ nl)] (good ++ x :: rest) = None.
Proof.
  intros Hlf Hx Hxlf Hgood.
  change (matchHere [Rep 0 c true; Lit (nl ++ nl)] (good ++ x :: rest))
    with (repeat 0 c true (matchHere [Lit (nl ++ nl)]) O [] (good ++ x :: rest)).
  apply repeat_fails. intros p q E Hp.
  destruct (cut_in_run c good x rest p q Hlf Hx Hxlf Hgood E Hp)
    as (y & q' & -> & Hy).
  change (nl ++ nl) with [LF; LF]. cbn [matchHere stripPrefix].
  destruct (N.eqb_spec LF y); [congruence | reflexivity].
Qed.

Lemma search_cons_None (r : list atom) (x : N) (s : jsstring) :
  matchHere r (x :: s) = None -> search r s = None -> search r (x :: s) = None.
Proof. intros H1 H2. cbn [search]. now rewrite H1. Qed.

End ParserFacts.

(** X1: on a body whose plugin section lists the values [entries],
    separated by a comma and a space, [findPlugins] returns these values in
    their order, without the blank ones. *)
Theorem findPlugins_lists_entries (pre post : jsstring)
        (entries : list jsstring) :
  matchesWithin pluginHeader pre
    (pluginSection (join (lit ", ") entries) ++ post) = false ->
  (forall e, In e entries -> forallb pluginChar e = true /\ ~ In 44 e) ->
  findPlugins (pre ++ pluginSection (join (lit ", ") entries) ++ post)
  = filter nonBlank entries.
Proof.
  intros Hpre Hentries. unfold findPlugins.
  rewrite exec_pluginSection; [|assumption|].
  - cbn [nth]. destruct entries as [|e entries]; [reflexivity|].
    rewrite split_join; [reflexivity | easy |].
    intros x Hx. now apply Hentries.
  - apply forallb_join; [reflexivity|].
    intros x Hx. now apply Hentries.
Qed.

Lemma findPlugins_lists_entries_witness :
  findPlugins
    (lit "Steps to reproduce: none. "
     ++ pluginSection (lit "Jetpack, , Starter Plugin")
     ++ lit "### Platform")
  = [lit "Jetpack"; lit "Starter Plugin"].
Proof.
  apply (findPlugins_lists_entries (lit "Steps to reproduce: none. ")
           (lit "### Platform") [lit "Jetpack"; []; lit "Starter Plugin"]).
  - vm_compute. reflexivity.
  - intros e [<-|[<-|[<-|[]]]]; (split; [reflexivity|]);
      cbn; intuition discriminate.
Defined.

(** X2: a plugin list with a character outside letters, spaces and commas
    (a digit, a hyphen, a dot...) before the end of its line is not read:
    when the header of the section occurs nowhere else in the body,
    [findPlugins] returns the empty list. *)
Theorem findPlugins_foreign_character (pre good rest : jsstring) (x : N) :
  matchesWithin pluginHeader pre
    (lit "### Impacted plugin" ++ nl ++ nl ++ good ++ x :: rest) = false ->
  search pluginHeader
    (lit "## Impacted plugin" ++ nl ++ nl ++ good ++ x :: rest) = None ->
  forallb pluginChar good = true ->
  pluginChar x = false -> x <> LF ->
  findPlugins (pre ++ lit "### Impacted plugin" ++ nl ++ nl ++ good ++ x :: rest)
  = [].
Proof.
  intros Hpre Hlater Hgood Hx Hxlf.
  unfold findPlugins, exec, pluginRegex, atoms, anchored.
  rewrite search_skip by now apply matchesWithin_prefix.
  change (lit "### Impacted plugin" ++ nl ++ nl ++ good ++ x :: rest)
    with (35 :: lit "## Impacted plugin" ++ nl ++ nl ++ good ++ x :: rest).
  rewrite search_cons_None; [reflexivity | |].
  - change (35 :: lit "## Impacted plugin" ++ nl ++ nl ++ good ++ x :: rest)
      with (lit "###" ++ 32 :: lit "Impacted" ++ 32 :: lit "plugin"
            ++ (nl ++ nl) ++ good ++ x :: rest).
    unfold pluginHeader. cbn [app].
    erewrite matchHere_Lit by apply stripPrefix_app.
    rewrite matchHere_Chr by reflexivity.
    erewrite matchHere_Lit by apply stripPrefix_app.
    rewrite matchHere_Chr by reflexivity.
    erewrite matchHere_Lit by apply stripPrefix_app.
    erewrite matchHere_Lit by apply stripPrefix_app.
    now apply list_with_foreign_character.
  - now apply (search_part [] pluginHeader).
Qed.

Lemma findPlugins_foreign_character_witness :
  findPlugins (pluginSection (lit "Jetpack, WooCommerce 2")) = [].
Proof.
  apply (findPlugins_foreign_character [] (lit "Jetpack, WooCommerce ")
           (nl ++ nl) 50); try reflexivity.
  discriminate.
Defined.

(** X3: whatever the body, the priority that [findPriority] returns is one
    of the five names BLOCKER, High, Normal, Low and TBD. *)
Theorem findPriority_is_a_tier (body : jsstring) :
  In (findPriority body) priorityNames.
Proof.
  rewrite findPriority_decide.
  destruct (match parseImpactSignal body with
            | Some (impact, workaround) => decide impact workaround
            | None => TBD
            end); cbn; tauto.
Qed.

(* ================================================================== *)
(** ** The label checks *)

Section LabelPatterns.

(** A quantified class before the end of the text matches exactly the
    texts made of the class. *)
Lemma repeat_to_end (min : nat) (c : cls) (grp : bool) :
  forall s n acc m,
    repeat min c grp (matchHere [Eos]) n acc s = Some m -> forallb c s = true.
Proof.
  induction s as [|x s IH]; intros n acc m; [reflexivity|].
  cbn [repeat forallb].
  assert (Hfin : finish min grp n acc (matchHere [Eos]) (x :: s) = None).
  { unfold finish. cbn [matchHere]. now destruct (Nat.leb min n). }
  rewrite Hfin. destruct (c x); [|discriminate].
  destruct (repeat min c grp (matchHere [Eos]) (S n) (x :: acc) s) eqn:Hr;
    [|discriminate].
  intros _. cbn [andb]. exact (IH _ _ _ Hr).
Qed.

(** The patterns of the label checks, [/^prefix.*$/]: a name matches when
    it starts with the prefix and goes on, on the same line, to its end. *)
Lemma prefix_pattern (prefix s : jsstring) :
  matches {| anchored := true;
             atoms := [Lit prefix; Rep 0 dot false; Eos] |} s = true
  <-> exists rest, s = prefix ++ rest /\ forallb dot rest = true.
Proof.
  unfold matches, exec. cbn [anchored atoms]. split.
  - change (matchHere [Lit prefix; Rep 0 dot false; Eos] s)
      with (match stripPrefix prefix s with
            | Some s' => repeat 0 dot false (matchHere [Eos]) O [] s'
            | None => None
            end).
    destruct (stripPrefix prefix s) as [rest|] eqn:Hp; [|discriminate].
    apply stripPrefix_Some in Hp as ->.
    destruct (repeat 0 dot false (matchHere [Eos]) 0 [] rest) eqn:Hr;
      [|discriminate].
    intros _. exists rest. split; [reflexivity|].
    exact (repeat_to_end _ _ _ _ _ _ _ Hr).
  - intros (rest & -> & Hrest).
    erewrite matchHere_Lit by apply stripPrefix_app.
    change (matchHere [Rep 0 dot false; Eos] rest)
      with (repeat 0 dot false (matchHere [Eos]) O [] rest).
    rewrite <- (app_nil_r rest).
    now rewrite (repeat_greedy 0 dot false (matchHere [Eos]) rest [] []
                   Hrest I eq_refl 0 []) by (cbn; lia).
Qed.

Lemma includes_In (ls : list jsstring) (l : jsstring) :
  includes ls l = true <-> In l ls.
Proof.
  unfold includes. rewrite existsb_exists. split.
  - intros (x & Hx & E). apply eqs_eq in E. now subst.
  - intros H. exists l. split; [exact H | apply eqs_refl].
Qed.

Lemma labeled_eq (action : jsstring) :
  eqs (lit "labeled") action = true <-> action = lit "labeled".
Proof. rewrite eqs_eq. split; congruence. Qed.

End LabelPatterns.

(** X4: when the labels of the issue are [ls], [hasPriorityLabels] answers
    exactly the names that start with "[Pri]" and stay on one line, taken
    from [ls] or, on a "labeled" event, from the label of the event. *)
Theorem hasPriorityLabels_members (env : Env) (owner repo : jsstring)
        (number : N) (action : jsstring) (eventLabel : option jsstring)
        (ls : list jsstring) :
  getLabels env owner repo number = Return ls ->
  exists rs,
    result (hasPriorityLabels env owner repo number action eventLabel)
    = Return rs
    /\ forall l,
        In l rs
        <-> ((exists rest, l = lit "[Pri]" ++ rest /\ forallb dot rest = true)
             /\ (In l ls \/ (action = lit "labeled" /\ eventLabel = Some l))).
Proof.
  intros Hls. unfold hasPriorityLabels, callGetLabels. rewrite Hls. cbn [bind ret].
  eexists. split; [reflexivity|]. intros l.
  rewrite filter_In. unfold priRegex. rewrite prefix_pattern.
  fold priRegex.
  destruct (eqs (lit "labeled") action && eventLabelMatches priRegex eventLabel)
    eqn:Hcond.
  - apply andb_true_iff in Hcond as [Haction Hevent].
    apply labeled_eq in Haction.
    destruct eventLabel as [name|]; [|discriminate].
    rewrite in_app_iff. cbn [In]. split.
    + intros [[H|[<-|[]]] Hl]; (split; [exact Hl|]); [now left | now right].
    + intros [Hl [H|[_ [= ->]]]]; (split; [|exact Hl]); [now left | right; now left].
  - split.
    + intros [H Hl]. split; [exact Hl | now left].
    + intros [Hl [H|[Haction ->]]]; [now split|]. exfalso.
      apply labeled_eq in Haction. rewrite Haction in Hcond. cbn [andb] in Hcond.
      unfold eventLabelMatches in Hcond.
      assert (Hm : matches priRegex l = true)
        by (unfold priRegex; now apply prefix_pattern).
      rewrite Hm, andb_true_r in Hcond.
      destruct Hl as (rest & -> & _). discriminate.
Qed.

Lemma hasPriorityLabels_members_witness :
  exists rs,
    result (hasPriorityLabels
              (world boardLink allOptions None [lit "[Type] Bug"; lit "[Pri] Low"])
              (lit "johns-test-org") (lit "github-actions-test") 42
              (lit "labeled") (Some (lit "[Pri] High")))
    = Return rs
    /\ forall l,
        In l rs
        <-> ((exists rest, l = lit "[Pri]" ++ rest /\ forallb dot rest = true)
             /\ (In l [lit "[Type] Bug"; lit "[Pri] Low"]
                 \/ (lit "labeled" = lit "labeled"
                     /\ Some (lit "[Pri] High") = Some l))).
Proof.
  apply hasPriorityLabels_members. reflexivity.
Defined.

(** X5: when the labels of the issue are [ls], [isBug] answers true exactly
    when "[Type] Bug" is one of them, or is the label of a "labeled"
    event. *)
Theorem isBug_iff (env : Env) (owner repo : jsstring) (number : N)
        (action : jsstring) (eventLabel : option jsstring)
        (ls : list jsstring) :
  getLabels env owner repo number = Return ls ->
  exists b,
    result (isBug env owner repo number action eventLabel) = Return b
    /\ (b = true
        <-> In (lit "[Type] Bug") ls
            \/ (action = lit "labeled" /\ eventLabel = Some (lit "[Type] Bug"))).
Proof.
  intros Hls. unfold isBug, callGetLabels. rewrite Hls. cbn [bind ret].
  destruct (includes ls (lit "[Type] Bug")) eqn:Hin.
  { exists true. split; [reflexivity|]. split; [|reflexivity].
    intros _. left. now apply includes_In. }
  assert (Hnot : ~ In (lit "[Type] Bug") ls).
  { intros H. apply includes_In in H. congruence. }
  destruct (eqs (lit "labeled") action) eqn:Haction; cbn [andb].
  - apply labeled_eq in Haction.
    destruct eventLabel as [name|].
    + destruct (eqs (lit "[Type] Bug") name) eqn:Hname.
      * apply eqs_eq in Hname as <-. exists true.
        split; [reflexivity|]. split; [|reflexivity]. intros _. now right.
      * rewrite andb_false_r. exists false. split; [reflexivity|].
        split; [discriminate|]. intros [H|[_ [= E]]]; [easy|].
        subst name. now rewrite eqs_refl in Hname.
    + exists false. split; [reflexivity|]. split; [discriminate|].
      intros [H|[_ [=]]]. easy.
  - exists false. split; [reflexivity|]. split; [discriminate|].
    intros [H|[H _]]; [easy|]. apply labeled_eq in H. congruence.
Qed.

Lemma isBug_iff_witness :
  exists b,
    result (isBug (world boardLink allOptions None [lit "[Pri] Low"])
                  (lit "johns-test-org") (lit "github-actions-test") 42
                  (lit "labeled") (Some (lit "[Type] Bug"))) = Return b
    /\ (b = true
        <-> In (lit "[Type] Bug") [lit "[Pri] Low"]
            \/ (lit "labeled" = lit "labeled"
                /\ Some (lit "[Type] Bug") = Some (lit "[Type] Bug"))).
Proof.
  apply isBug_iff. reflexivity.
Defined.

(** X6: when the labels of the issue are [ls], [hasEscalatedLabel] answers
    [true] or [undefined], and [true] exactly when "[Status] Escalated" or
    "[Status] Escalated to Kitkat" is one of them, or the event is
    "labeled" with a label whose name starts with "[Status] Escalated" and
    stays on one line.  A longer name counts as the label of the event,
    not as a label of the issue. *)
Theorem hasEscalatedLabel_iff (env : Env) (owner repo : jsstring) (number : N)
        (action : jsstring) (eventLabel : option jsstring)
        (ls : list jsstring) :
  getLabels env owner repo number = Return ls ->
  exists v,
    result (hasEscalatedLabel env owner repo number action eventLabel)
    = Return v
    /\ (v = VBool true \/ v = VUndef)
    /\ (v = VBool true
        <-> In (lit "[Status] Escalated") ls
            \/ In (lit "[Status] Escalated to Kitkat") ls
            \/ (action = lit "labeled"
                /\ exists rest,
                    eventLabel = Some (lit "[Status] Escalated" ++ rest)
                    /\ forallb dot rest = true)).
Proof.
  intros Hls. unfold hasEscalatedLabel, callGetLabels. rewrite Hls.
  cbn [bind ret].
  destruct (includes ls (lit "[Status] Escalated")) eqn:H1.
  { exists (VBool true). repeat split; auto.
    intros _. left. now apply includes_In. }
  destruct (includes ls (lit "[Status] Escalated to Kitkat")) eqn:H2.
  { exists (VBool true). repeat split; auto.
    intros _. right; left. now apply includes_In. }
  cbn [orb].
  assert (Hn1 : ~ In (lit "[Status] Escalated") ls)
    by (intros H; apply includes_In in H; congruence).
  assert (Hn2 : ~ In (lit "[Status] Escalated to Kitkat") ls)
    by (intros H; apply includes_In in H; congruence).
  destruct (eqs (lit "labeled") action
            && eventLabelMatches escalatedRegex eventLabel) eqn:Hcond.
  - exists (VBool true). repeat split; auto. intros _. right; right.
    apply andb_true_iff in Hcond as [Haction Hevent].
    apply labeled_eq in Haction. split; [exact Haction|].
    destruct eventLabel as [name|]; [|discriminate].
    cbn in Hevent. apply andb_true_iff in Hevent as [_ Hevent].
    unfold escalatedRegex in Hevent. apply prefix_pattern in Hevent.
    destruct Hevent as (rest & -> & Hrest). now exists rest.
  - exists VUndef. repeat split; auto; [discriminate|].
    intros [H|[H|(Haction & rest & -> & Hrest)]]; [easy | easy |]. exfalso.
    apply labeled_eq in Haction. rewrite Haction in Hcond. cbn [andb] in Hcond.
    unfold eventLabelMatches in Hcond.
    assert (Hm : matches escalatedRegex (lit "[Status] Escalated" ++ rest) = true)
      by (unfold escalatedRegex; apply prefix_pattern; now exists rest).
    rewrite Hm, andb_true_r in Hcond. discriminate.
Qed.

Lemma hasEscalatedLabel_iff_witness :
  exists v,
    result (hasEscalatedLabel
              (world boardLink allOptions None [lit "[Status] Escalated to Support"])
              (lit "johns-test-org") (lit "github-actions-test") 42
              (lit "labeled") (Some (lit "[Status] Escalated to Kitkat")))
    = Return v
    /\ (v = VBool true \/ v = VUndef)
    /\ (v = VBool true
        <-> In (lit "[Status] Escalated") [lit "[Status] Escalated to Support"]
            \/ In (lit "[Status] Escalated to Kitkat")
                  [lit "[Status] Escalated to Support"]
            \/ (lit "labeled" = lit "labeled"
                /\ exists rest,
                    Some (lit "[Status] Escalated to Kitkat")
                    = Some (lit "[Status] Escalated" ++ rest)
                    /\ forallb dot rest = true)).
Proof.
  apply hasEscalatedLabel_iff. reflexivity.
Defined.

(* ================================================================== *)
(** ** The board client *)

Section BoardClient.

Lemma trace_callGraphql_bind {B} (env : Env) (req : request)
      (k : value -> M B) :
  (forall v, trace (k v) = []) ->
  trace (bind (callGraphql env req) k) = [Graphql req].
Proof.
  intros Hk. unfold callGraphql. destruct (graphql env req) as [data|e]; cbn.
  - specialize (Hk (VObj data)). destruct (k (VObj data)). cbn in Hk. now subst.
  - reflexivity.
Qed.







Lemma matchHere_Alt (alts : list jsstring) (grp : bool) (r : list atom)
      (s : jsstring) :
  matchHere (Alt alts grp :: r) s = alternatives grp (matchHere r) s alts.
Proof. reflexivity. Qed.

(** The pattern of the link, on a link of the expected form. *)
Lemma exec_projectRegex (scheme kind owner digits rest : jsstring) :
  scheme = lit "https://" \/ scheme = [] ->
  kind = lit "orgs" \/ kind = lit "users" ->
  owner <> [] -> forallb notSlash owner = true ->
  digits <> [] -> forallb digit digits = true ->
  match rest with [] => True | x :: _ => digit x = false end ->
  exec projectRegex
       (scheme ++ lit "github.com/" ++ kind ++ lit "/" ++ owner
        ++ lit "/projects/" ++ digits ++ rest)
  = Some [kind; owner; digits].
Proof.
  intros Hscheme Hkind Howner Hslash Hdigits Hdigit Hrest.
  assert (Hlen : forall w : jsstring, w <> [] -> (1 <= 0 + List.length w)%nat).
  { intros [|x w] H; [easy | cbn; lia]. }
  assert (K3 : matchHere [Rep 1 digit true] (digits ++ rest) = Some [digits]).
  { change (matchHere [Rep 1 digit true] (digits ++ rest))
      with (repeat 1 digit true (matchHere []) O [] (digits ++ rest)).
    now rewrite (repeat_greedy 1 digit true (matchHere []) digits rest []
                   Hdigit Hrest eq_refl 0 [] (Hlen _ Hdigits)). }
  assert (K1 : matchHere [Lit (lit "/"); Rep 1 notSlash true;
                          Lit (lit "/projects/"); Rep 1 digit true]
                 (lit "/" ++ owner ++ lit "/projects/" ++ digits ++ rest)
               = Some [owner; digits]).
  { erewrite matchHere_Lit by apply stripPrefix_app.
    change (matchHere [Rep 1 notSlash true; Lit (lit "/projects/");
                       Rep 1 digit true] ?s)
      with (repeat 1 notSlash true
              (matchHere [Lit (lit "/projects/"); Rep 1 digit true]) O [] s).
    rewrite (repeat_greedy 1 notSlash true
               (matchHere [Lit (lit "/projects/"); Rep 1 digit true])
               owner (lit "/projects/" ++ digits ++ rest) [digits]
               Hslash eq_refl);
      [reflexivity | | now apply Hlen].
    erewrite matchHere_Lit by apply stripPrefix_app. exact K3. }
  unfold exec, projectRegex. cbn [anchored atoms].
  assert (K0 : matchHere [Alt [lit "orgs"; lit "users"] true; Lit (lit "/");
                          Rep 1 notSlash true; Lit (lit "/projects/");
                          Rep 1 digit true]
                 (kind ++ lit "/" ++ owner ++ lit "/projects/" ++ digits ++ rest)
               = Some [kind; owner; digits]).
  { rewrite matchHere_Alt. cbn [alternatives].
    destruct Hkind as [-> | ->].
    - rewrite stripPrefix_app. now rewrite K1.
    - replace (stripPrefix (lit "orgs") (lit "users" ++ _)) with (@None jsstring)
        by reflexivity.
      rewrite stripPrefix_app. now rewrite K1. }
  rewrite matchHere_Alt. cbn [alternatives].
  destruct Hscheme as [-> | ->].
  - rewrite stripPrefix_app.
    erewrite (matchHere_Lit (lit "github.com/")) by apply stripPrefix_app.
    now rewrite K0.
  - replace (stripPrefix (lit "https://") ([] ++ lit "github.com/" ++ _))
      with (@None jsstring) by reflexivity.
    cbn [stripPrefix app].
    erewrite (matchHere_Lit (lit "github.com/"))
      by (apply (stripPrefix_app (lit "github.com/"))).
    now rewrite K0.
Qed.

End BoardClient.

(** X7: for a link [https://github.com/{orgs|users}/{owner}/projects/{digits}]
    (the scheme may be left out, anything not starting with a digit may
    follow) whose project number is at most 2^53, so that [parseInt] reads
    it exactly, [getProjectDetails] makes one request, and no other: the
    query of project number [digits] of the organization [owner], whether
    the link says [orgs] or [users]. *)
Theorem getProjectDetails_request (env : Env)
        (scheme kind owner digits rest : jsstring) :
  scheme = lit "https://" \/ scheme = [] ->
  kind = lit "orgs" \/ kind = lit "users" ->
  owner <> [] -> forallb notSlash owner = true ->
  digits <> [] -> forallb digit digits = true ->
  parseInt10 digits <= 2 ^ 53 ->
  match rest with [] => True | x :: _ => digit x = false end ->
  trace (getProjectDetails env
           (scheme ++ lit "github.com/" ++ kind ++ lit "/" ++ owner
            ++ lit "/projects/" ++ digits ++ rest))
  = [Graphql (GetProject owner (parseInt10 digits))].
Proof.
  intros Hscheme Hkind Howner Hslash Hdigits Hdigit _ Hrest.
  unfold getProjectDetails.
  rewrite (exec_projectRegex scheme kind owner digits rest) by assumption.
  cbn [nth]. apply trace_callGraphql_bind. intros projectDetails.
  repeat first
    [ pure_step
    | apply pure_bind; [ | intros ? ]
    | match goal with
      | |- trace (if ?b then _ else _) = [] => destruct b
      end ].
Qed.

Lemma getProjectDetails_request_witness :
  trace (getProjectDetails (world boardLink allOptions None [])
           (lit "github.com/users/jane/projects/7/views/1"))
  = [Graphql (GetProject (lit "jane") 7)].
Proof.
  apply (getProjectDetails_request (world boardLink allOptions None [])
           [] (lit "users") (lit "jane") (lit "7") (lit "/views/1"));
    try reflexivity; try discriminate; auto.
Defined.



(* ================================================================== *)
(** ** The calls of a run: which, how many, in which order *)

Section Counting.

Context {A B : Type} (p : event -> bool).

Lemma atMost_bind (m : M A) (k : A -> M B) (a b : nat) :
  atMost p a m -> (forall x, atMost p b (k x)) ->
  atMost p (a + b) (bind m k).
Proof.
  unfold atMost. intros Hm Hk.
  case_eq (result m); [intros x Hr | intros e Hr].
  - destruct (bind_Return m k x Hr) as [-> _].
    rewrite filter_app, length_app. specialize (Hk x). lia.
  - destruct (bind_Throw m k e Hr) as [-> _]. lia.
Qed.

Lemma atMost_pure (m : M A) : trace m = [] -> atMost p 0 m.
Proof. unfold atMost. now intros ->. Qed.

Lemma atMost_weaken (m : M A) (a b : nat) :
  atMost p a m -> (a <= b)%nat -> atMost p b m.
Proof. unfold atMost. lia. Qed.

Lemma atMost_if (c : bool) (m1 m2 : M A) (a b : nat) :
  atMost p a m1 -> atMost p b m2 ->
  atMost p (Nat.max a b) (if c then m1 else m2).
Proof. unfold atMost. destruct c; lia. Qed.

End Counting.

Section CountingCalls.

Context (p : event -> bool) (env : Env).

Lemma atMost_callGraphql req (b : bool) :
  p (Graphql req) = b ->
  atMost p (if b then 1 else 0) (callGraphql env req).
Proof. intros <-. unfold atMost. cbn. now destruct (p (Graphql req)). Qed.

Lemma atMost_callGetLabels owner repo number (b : bool) :
  p (GetLabels owner repo number) = b ->
  atMost p (if b then 1 else 0) (callGetLabels env owner repo number).
Proof.
  intros <-. unfold atMost. cbn. now destruct (p (GetLabels owner repo number)).
Qed.

Lemma atMost_callAddLabels owner repo number labels (b : bool) :
  p (AddLabels owner repo number labels) = b ->
  atMost p (if b then 1 else 0) (callAddLabels env owner repo number labels).
Proof.
  intros <-. unfold atMost. cbn.
  now destruct (p (AddLabels owner repo number labels)).
Qed.

End CountingCalls.

Ltac atMost_steps :=
  repeat first
    [ eapply atMost_bind; [ | intros ? ]
    | eapply atMost_if
    | apply atMost_pure; pure_step
    | eapply atMost_callGraphql; cbn; reflexivity
    | eapply atMost_callGetLabels; cbn; reflexivity
    | eapply atMost_callAddLabels; cbn; reflexivity ].

Section RunCalls.

Variable env : Env.
Variable payload : Payload.

Lemma getProjectDetails_atMost (p : event -> bool) (b : bool)
      (link : jsstring) :
  (forall owner number, p (Graphql (GetProject owner number)) = b) ->
  atMost p (if b then 1 else 0) (getProjectDetails env link).
Proof.
  intros Hp. unfold getProjectDetails.
  destruct (exec projectRegex link) as [m|].
  - eapply atMost_weaken; [atMost_steps|]. rewrite Hp. cbn. lia.
  - eapply atMost_weaken; [apply atMost_pure; reflexivity | lia].
Qed.

Lemma syncBoard_atMost_requests (link : jsstring) :
  atMost graphqlEvent 4 (syncBoard env payload link).
Proof.
  unfold syncBoard, getItemNodeId, updateProjectField.
  eapply atMost_weaken.
  - eapply atMost_bind;
      [apply (getProjectDetails_atMost graphqlEvent true); reflexivity
      | intros ?].
    atMost_steps.
  - cbn. lia.
Qed.

Lemma syncBoard_atMost_updates (link : jsstring) :
  atMost updateEvent 1 (syncBoard env payload link).
Proof.
  unfold syncBoard, getItemNodeId, updateProjectField.
  eapply atMost_weaken.
  - eapply atMost_bind;
      [apply (getProjectDetails_atMost updateEvent false); reflexivity
      | intros ?].
    atMost_steps.
  - cbn. lia.
Qed.

Lemma reconcileLabels_atMost_listings :
  atMost getLabelsEvent 2 (reconcileLabels env payload).
Proof.
  unfold reconcileLabels, hasPriorityLabels, isBug, addTriageLabels.
  eapply atMost_weaken; [atMost_steps | cbn; lia].
Qed.

Lemma reconcileLabels_atMost_additions :
  atMost addLabelsEvent 3 (reconcileLabels env payload).
Proof.
  unfold reconcileLabels, hasPriorityLabels, isBug, addTriageLabels.
  eapply atMost_weaken; [atMost_steps | cbn; lia].
Qed.

Lemma filter_none (p : event -> bool) (Q : event -> Prop) (t : list event) :
  (forall ev, Q ev -> p ev = false) -> Forall Q t -> filter p t = [].
Proof.
  intros Hp. induction 1 as [|ev t Hev _ IH]; [reflexivity|].
  cbn. now rewrite (Hp ev Hev).
Qed.

End RunCalls.

Section RunOrder.

Variable env : Env.
Variable payload : Payload.

Lemma triageIssues_asks :
  always (asksAboutIssue (issue_node_id payload)) (triageIssues env payload).
Proof.
  unfold triageIssues.
  destruct (eqs (getInput env "project_automation_token") []).
  { unfold always. cbn. now repeat constructor. }
  destruct (eqs (getInput env "project_board") []).
  { unfold always. cbn. now repeat constructor. }
  unfold syncBoard, getProjectDetails, getItemNodeId, updateProjectField,
    reconcileLabels, hasPriorityLabels, isBug, addTriageLabels.
  run_steps; cbn; auto.
Qed.

(** The trace of a configured run: the requests of the board, then the
    calls to the label API. *)
Lemma configured_run_trace (link : jsstring) :
  exists requests calls,
    trace (syncBoard env payload link ;;; reconcileLabels env payload)
    = requests ++ calls
    /\ requests = trace (syncBoard env payload link)
    /\ (calls = [] \/ calls = trace (reconcileLabels env payload)).
Proof.
  case_eq (result (syncBoard env payload link)); [intros u Hr | intros e Hr].
  - destruct (bind_Return _ (fun _ => reconcileLabels env payload) u Hr)
      as [Ht _].
    eexists _, _. split; [exact Ht|]. split; [reflexivity | now right].
  - destruct (bind_Throw _ (fun _ => reconcileLabels env payload) e Hr)
      as [Ht _].
    exists (trace (syncBoard env payload link)), [].
    rewrite app_nil_r. split; [exact Ht|]. split; [reflexivity | now left].
Qed.

End RunOrder.

(** X9: whatever the link of the board, the look-up of the issue in the
    project asks for project number 11, and both look-ups of the issue
    carry the node id of the issue of the event. *)
Theorem issue_lookups (env : Env) (payload : Payload) :
  (forall id number,
      In (Graphql (GetProjectNumber id number))
         (trace (triageIssues env payload)) ->
      id = issue_node_id payload /\ number = 11)
  /\ (forall id,
         In (Graphql (GetIssueProjectDetails id))
            (trace (triageIssues env payload)) ->
         id = issue_node_id payload).
Proof.
  pose proof (triageIssues_asks env payload) as H.
  unfold always in H. rewrite Forall_forall in H.
  split; [intros id number Hin | intros id Hin]; exact (H _ Hin).
Qed.

Lemma issue_lookups_witness :
  lit "I_kwDOissue42" = issue_node_id opened /\ 11 = 11.
Proof.
  apply (proj1 (issue_lookups
                  (world (lit "https://github.com/orgs/acme/projects/7")
                         allOptions None [])
                  opened)).
  vm_compute. tauto.
Defined.

(** X10: a run is either the report of a missing input, or a sequence of
    GraphQL requests followed by a sequence of calls to the label API: no
    label is listed or added before the last request to the board. *)
Theorem board_before_labels (env : Env) (payload : Payload) :
  (exists msg, trace (triageIssues env payload) = [SetFailed msg])
  \/ exists requests calls,
      trace (triageIssues env payload) = requests ++ calls
      /\ Forall isGraphql requests /\ Forall isLabelCall calls.
Proof.
  unfold triageIssues.
  destruct (eqs (getInput env "project_automation_token") []).
  { left. eexists. reflexivity. }
  destruct (eqs (getInput env "project_board") []).
  { left. eexists. reflexivity. }
  right.
  destruct (configured_run_trace env payload (getInput env "project_board"))
    as (requests & calls & Ht & -> & Hcalls).
  exists (trace (syncBoard env payload (getInput env "project_board"))), calls.
  split; [exact Ht|]. split; [apply syncBoard_events|].
  destruct Hcalls as [-> | ->]; [constructor | apply reconcileLabels_events].
Qed.

(** X11: a run makes at most four GraphQL requests, of which at most one
    is an update of the board, and at most two listings and three
    additions of labels. *)
Theorem run_call_bounds (env : Env) (payload : Payload) :
  atMost graphqlEvent 4 (triageIssues env payload)
  /\ atMost updateEvent 1 (triageIssues env payload)
  /\ atMost getLabelsEvent 2 (triageIssues env payload)
  /\ atMost addLabelsEvent 3 (triageIssues env payload).
Proof.
  unfold triageIssues.
  destruct (eqs (getInput env "project_automation_token") []).
  { unfold atMost. cbn. repeat split; lia. }
  destruct (eqs (getInput env "project_board") []).
  { unfold atMost. cbn. repeat split; lia. }
  set (link := getInput env "project_board").
  assert (Hlabel : forall ev, isLabelCall ev ->
                     graphqlEvent ev = false /\ updateEvent ev = false)
    by (intros []; cbn; intuition).
  assert (Hgraph : forall ev, isGraphql ev ->
                     getLabelsEvent ev = false /\ addLabelsEvent ev = false)
    by (intros []; cbn; intuition).
  pose proof (syncBoard_events env payload link) as Hs.
  pose proof (reconcileLabels_events env payload) as Hr.
  repeat split.
  - apply (atMost_bind _ _ _ 4 0); [apply syncBoard_atMost_requests|].
    intros _. unfold atMost.
    rewrite (filter_none graphqlEvent isLabelCall); auto.
    intros ev H. now apply Hlabel.
  - apply (atMost_bind _ _ _ 1 0); [apply syncBoard_atMost_updates|].
    intros _. unfold atMost.
    rewrite (filter_none updateEvent isLabelCall); auto.
    intros ev H. now apply Hlabel.
  - apply (atMost_bind _ _ _ 0 2);
      [|intros _; apply reconcileLabels_atMost_listings].
    unfold atMost. rewrite (filter_none getLabelsEvent isGraphql); auto.
    intros ev H. now apply Hgraph.
  - apply (atMost_bind _ _ _ 0 3);
      [|intros _; apply reconcileLabels_atMost_additions].
    unfold atMost. rewrite (filter_none addLabelsEvent isGraphql); auto.
    intros ev H. now apply Hgraph.
Qed.

(* ================================================================== *)
(** ** What a run does, and what it never does *)

Section RunFacts.

Variable env : Env.
Variable payload : Payload.

Lemma nonempty_eqs (s : jsstring) : s <> [] -> eqs s [] = false.
Proof. now destruct s. Qed.

(** Without a global [projectNodeId], the board steps do not return. *)
Lemma syncBoard_without_global (link : jsstring) (u : unit) :
  globalThis env "projectNodeId" = None ->
  result (syncBoard env payload link) <> Return u.
Proof.
  intros Hglobal H. unfold syncBoard in H.
  repeat (apply result_bind_inv in H as (? & ? & H)).
  match goal with
  | Hread : result (readGlobal env "projectNodeId") = Return _ |- _ =>
      unfold readGlobal in Hread; rewrite Hglobal in Hread; discriminate
  end.
Qed.

Lemma syncBoard_without_global_events (link : jsstring) :
  globalThis env "projectNodeId" = None ->
  always (fun ev => isGraphql ev /\ ~ isBoardUpdate ev)
         (syncBoard env payload link).
Proof.
  intros Hglobal.
  unfold syncBoard, getProjectDetails, getItemNodeId, updateProjectField.
  run_steps; cbn; auto;
    match goal with
    | H : result (readGlobal env "projectNodeId") = Return _ |- _ =>
        unfold readGlobal in H; rewrite Hglobal in H; discriminate
    end.
Qed.

Lemma findPlatforms_kept (body platform : jsstring) :
  In platform (findPlatforms body) -> platform <> lit "Self-hosted".
Proof.
  unfold findPlatforms. destruct (exec platformRegex body); [|easy].
  intros H. apply filter_In in H as [_ H]. intros ->.
  now rewrite eqs_refl in H.
Qed.

Lemma findPriority_names (body : jsstring) :
  In (findPriority body) priorityNames.
Proof.
  rewrite findPriority_decide.
  destruct (match parseImpactSignal body with
            | Some (impact, workaround) => decide impact workaround
            | None => TBD
            end); cbn; tauto.
Qed.

Lemma triageIssues_labels :
  always addsTriageLabels (triageIssues env payload).
Proof.
  unfold triageIssues.
  destruct (eqs (getInput env "project_automation_token") []).
  { unfold always. cbn. now repeat constructor. }
  destruct (eqs (getInput env "project_board") []).
  { unfold always. cbn. now repeat constructor. }
  unfold syncBoard, getProjectDetails, getItemNodeId, updateProjectField,
    reconcileLabels, hasPriorityLabels, isBug, addTriageLabels.
  run_steps; cbn [addsTriageLabels]; auto.
  - apply Forall_forall. intros l Hl. apply in_map_iff in Hl as (x & <- & _).
    left. now exists x.
  - apply Forall_forall. intros l Hl. apply in_map_iff in Hl as (x & <- & Hx).
    right; left. exists x. split; [reflexivity|].
    now apply findPlatforms_kept in Hx.
  - constructor; [|constructor]. right; right.
    eexists. split; [reflexivity | apply findPriority_names].
Qed.

Lemma addedLabels_In (t : list event) (l : jsstring) :
  In l (addedLabels t) ->
  exists owner repo number labels,
    In (AddLabels owner repo number labels) t /\ In l labels.
Proof.
  unfold addedLabels. rewrite in_flat_map. intros (ev & Hev & Hl).
  destruct ev; try easy. eexists _, _, _, _. split; [exact Hev | exact Hl].
Qed.

Lemma triageLabel_not_self_hosted (l : jsstring) :
  triageLabel l -> l <> lit "[Platform] Self-hosted".
Proof.
  intros [(x & ->) | [(x & -> & Hx) | (x & -> & _)]] E.
  - discriminate.
  - apply (app_inv_head (lit "[Platform] ")) in E. contradiction.
  - discriminate.
Qed.

Lemma triageIssues_not_new :
  isNewIssue (action payload) = false ->
  always (fun ev => ~ isAddLabels ev) (triageIssues env payload).
Proof.
  intros Hnew. unfold triageIssues.
  destruct (eqs (getInput env "project_automation_token") []).
  { unfold always. cbn. repeat constructor. easy. }
  destruct (eqs (getInput env "project_board") []).
  { unfold always. cbn. repeat constructor. easy. }
  unfold syncBoard, getProjectDetails, getItemNodeId, updateProjectField,
    reconcileLabels, hasPriorityLabels, isBug, addTriageLabels.
  rewrite Hnew.
  run_steps; cbn; auto.
Qed.

End RunFacts.

(** X12: where the global object has no [projectNodeId] (as under Node.js),
    a run with both inputs set never returns normally: it ends in an
    exception, and all it has done are GraphQL requests, none of them an
    update of the board; no label is listed or added. *)
Theorem run_without_global (env : Env) (payload : Payload) :
  globalThis env "projectNodeId" = None ->
  getInput env "project_automation_token" <> [] ->
  getInput env "project_board" <> [] ->
  (exists e, result (triageIssues env payload) = Throw e)
  /\ always (fun ev => isGraphql ev /\ ~ isBoardUpdate ev)
            (triageIssues env payload).
Proof.
  intros Hglobal Htoken Hlink. unfold triageIssues.
  rewrite (nonempty_eqs _ Htoken), (nonempty_eqs _ Hlink).
  set (link := getInput env "project_board").
  case_eq (result (syncBoard env payload link)); [intros u Hr | intros e Hr].
  - now apply syncBoard_without_global in Hr.
  - destruct (bind_Throw _ (fun _ => reconcileLabels env payload) e Hr)
      as [Ht Hres].
    split; [now exists e|].
    unfold always. rewrite Ht. now apply syncBoard_without_global_events.
Qed.

Lemma run_without_global_witness :
  (exists e,
      result (triageIssues (world boardLink allOptions None [lit "[Type] Bug"])
                           opened) = Throw e)
  /\ always (fun ev => isGraphql ev /\ ~ isBoardUpdate ev)
            (triageIssues (world boardLink allOptions None [lit "[Type] Bug"])
                          opened).
Proof.
  apply run_without_global; [reflexivity | discriminate | discriminate].
Defined.

(** X13: on an event other than "opened" and "reopened" (a "labeled"
    event, an edit, a closing), a run adds no label. *)
Theorem no_label_unless_new (env : Env) (payload : Payload) :
  isNewIssue (action payload) = false ->
  addedLabels (trace (triageIssues env payload)) = []
  /\ always (fun ev => ~ isAddLabels ev) (triageIssues env payload).
Proof.
  intros Hnew.
  pose proof (triageIssues_not_new env payload Hnew) as H.
  split; [|exact H].
  unfold always in H. induction H as [|ev t Hev _ IH]; [reflexivity|].
  destruct ev; try exact IH. now exfalso; apply Hev.
Qed.

Lemma no_label_unless_new_witness :
  let labeled :=
    {| action := lit "labeled"; issue_number := 42;
       issue_body := Some bugReport; issue_node_id := lit "I_kwDOissue42";
       label_name := Some (lit "[Type] Bug");
       owner_login := lit "johns-test-org";
       repo_name := lit "github-actions-test" |} in
  let env := world boardLink allOptions
                   (Some (VStr (lit "PVT_kwDOCGvWfc4AUwHE"))) [] in
  addedLabels (trace (triageIssues env labeled)) = []
  /\ always (fun ev => ~ isAddLabels ev) (triageIssues env labeled).
Proof.
  intros labeled env. apply no_label_unless_new. reflexivity.
Defined.

(** X14: every label that a run adds is "[Plugin] " followed by a plugin,
    "[Platform] " followed by a platform other than "Self-hosted", or
    "[Pri] " followed by one of BLOCKER, High, Normal, Low and TBD; in
    particular "[Platform] Self-hosted" is never added. *)
Theorem added_labels_are_triage_labels (env : Env) (payload : Payload)
        (l : jsstring) :
  In l (addedLabels (trace (triageIssues env payload))) ->
  triageLabel l /\ l <> lit "[Platform] Self-hosted".
Proof.
  intros Hl. apply addedLabels_In in Hl as (owner & repo & number & labels & Hev & Hl).
  pose proof (triageIssues_labels env payload) as H.
  unfold always in H. rewrite Forall_forall in H.
  specialize (H _ Hev). cbn in H. rewrite Forall_forall in H.
  split; [now apply H|]. now apply triageLabel_not_self_hosted, H.
Qed.

Lemma added_labels_are_triage_labels_witness :
  triageLabel (lit "[Platform] Simple")
  /\ lit "[Platform] Simple" <> lit "[Platform] Self-hosted".
Proof.
  apply (added_labels_are_triage_labels
           (world boardLink allOptions
                  (Some (VStr (lit "PVT_kwDOCGvWfc4AUwHE"))) [lit "[Type] Bug"])
           opened).
  vm_compute. tauto.
Defined.

(* ================================================================== *)
(** ** Failures of the label API, and the labels of a completed run *)

Section LabelFailures.

Variable env : Env.

Lemma labelFailStop_bind {A B} (m : M A) (k : A -> M B) :
  labelFailStop env m ->
  (forall a, result m = Return a -> labelFailStop env (k a)) ->
  labelFailStop env (bind m k).
Proof.
  intros [Hm1 Hm2] Hk.
  case_eq (result m); [intros a Hr | intros e0 Hr].
  - destruct (bind_Return m k a Hr) as [Ht Hres].
    destruct (Hk a Hr) as [Hk1 Hk2].
    split; intros until e; rewrite Ht, Hres; intros Hin Hcall;
      apply in_app_or in Hin as [Hin|Hin].
    + rewrite (Hm1 _ _ _ _ Hin Hcall) in Hr. discriminate.
    + exact (Hk1 _ _ _ _ Hin Hcall).
    + rewrite (Hm2 _ _ _ _ _ Hin Hcall) in Hr. discriminate.
    + exact (Hk2 _ _ _ _ _ Hin Hcall).
  - destruct (bind_Throw m k e0 Hr) as [Ht Hres].
    split; intros until e; rewrite Ht, Hres; intros Hin Hcall.
    + rewrite (Hm1 _ _ _ _ Hin Hcall) in Hr. now injection Hr as <-.
    + rewrite (Hm2 _ _ _ _ _ Hin Hcall) in Hr. now injection Hr as <-.
Qed.

Lemma labelFailStop_quiet {A} (m : M A) :
  always (fun ev => ~ isLabelCall ev) m -> labelFailStop env m.
Proof.
  unfold always. rewrite Forall_forall. intros H.
  split; intros until e; intros Hin; exfalso; apply (H _ Hin); exact I.
Qed.

Lemma labelFailStop_callGetLabels owner repo number :
  labelFailStop env (callGetLabels env owner repo number).
Proof.
  split; intros until e; intros [[=]|[]] Hcall. subst.
  unfold callGetLabels. cbn. exact Hcall.
Qed.

Lemma labelFailStop_callAddLabels owner repo number labels :
  labelFailStop env (callAddLabels env owner repo number labels).
Proof.
  split; intros until e; intros [[=]|[]] Hcall. subst.
  unfold callAddLabels. cbn. exact Hcall.
Qed.

Lemma reconcileLabels_failStop (payload : Payload) :
  labelFailStop env (reconcileLabels env payload).
Proof.
  unfold reconcileLabels, hasPriorityLabels, isBug, addTriageLabels.
  repeat first
    [ apply labelFailStop_callGetLabels
    | apply labelFailStop_callAddLabels
    | apply labelFailStop_bind; [ | intros ? ? ]
    | apply labelFailStop_quiet, always_pure; reflexivity
    | match goal with
      | |- labelFailStop _ (if ?b then _ else _) => destruct b
      end ].
Qed.

Lemma triageIssues_labelFailStop (payload : Payload) :
  labelFailStop env (triageIssues env payload).
Proof.
  unfold triageIssues.
  destruct (eqs (getInput env "project_automation_token") []).
  { apply labelFailStop_quiet. unfold always. cbn. repeat constructor. easy. }
  destruct (eqs (getInput env "project_board") []).
  { apply labelFailStop_quiet. unfold always. cbn. repeat constructor. easy. }
  apply labelFailStop_bind; [|intros _ _; apply reconcileLabels_failStop].
  apply labelFailStop_quiet.
  pose proof (syncBoard_events env payload (getInput env "project_board")) as H.
  unfold always in *. rewrite Forall_forall in *.
  intros ev Hev. specialize (H ev Hev). now destruct ev.
Qed.

(** The labels of the steps "If this is a new issue, try to add labels",
    when they complete. *)
Lemma addTriageLabels_complete (payload : Payload)
      (priorityLabels : list jsstring) (priority : jsstring)
      (isBugIssue : bool) :
  result (addTriageLabels env payload priorityLabels priority isBugIssue)
  = Return tt ->
  addedLabels (trace (addTriageLabels env payload priorityLabels priority
                        isBugIssue))
  = if isNewIssue (action payload) then
      map (fun plugin => lit "[Plugin] " ++ plugin)
          (findPlugins (bodyText (issue_body payload)))
      ++ map (fun platform => lit "[Platform] " ++ platform)
             (findPlatforms (bodyText (issue_body payload)))
      ++ (if Nat.eqb (List.length priorityLabels) 0 && isBugIssue
          then [lit "[Pri] " ++ priority] else [])
    else [].
Proof.
  unfold addTriageLabels.
  destruct (isNewIssue (action payload)); [|reflexivity].
  destruct (findPlugins (bodyText (issue_body payload))) as [|plugin plugins];
    destruct (findPlatforms (bodyText (issue_body payload)))
      as [|platform platforms];
    destruct (Nat.eqb (List.length priorityLabels) 0 && isBugIssue);
    cbn [List.length Nat.eqb negb];
    unfold callAddLabels, ret;
    repeat (match goal with
            | |- context [addLabels env ?a ?b ?c ?d] =>
                destruct (addLabels env a b c d) as [[]|]
            end; cbn [bind]);
    cbn [bind result snd trace fst app addedLabels flat_map map];
    try discriminate; intros _; now rewrite ?app_nil_r.
Qed.

End LabelFailures.

(** X15: a rejected call to the label API, a listing or an addition of
    labels, is not caught: the run ends with that failure. *)
Theorem label_failure_aborts (env : Env) (payload : Payload) :
  (forall owner repo number e,
      In (GetLabels owner repo number) (trace (triageIssues env payload)) ->
      getLabels env owner repo number = Throw e ->
      result (triageIssues env payload) = Throw e)
  /\ (forall owner repo number labels e,
         In (AddLabels owner repo number labels)
            (trace (triageIssues env payload)) ->
         addLabels env owner repo number labels = Throw e ->
         result (triageIssues env payload) = Throw e).
Proof. exact (triageIssues_labelFailStop env payload). Qed.

(** X16: a run with both inputs set that returns normally, on an issue
    with the labels [ls], has added exactly: on "opened" or "reopened", a
    "[Plugin] " label for each plugin found in the body, a "[Platform] "
    label for each platform found, and the "[Pri] " label of the computed
    priority when [ls] has "[Type] Bug" and no priority label; nothing on
    another event. *)
Theorem completed_run_labels (env : Env) (payload : Payload)
        (ls : list jsstring) :
  getInput env "project_automation_token" <> [] ->
  getInput env "project_board" <> [] ->
  getLabels env (owner_login payload) (repo_name payload)
            (issue_number payload) = Return ls ->
  result (triageIssues env payload) = Return tt ->
  addedLabels (trace (triageIssues env payload)) = labelsToAdd payload ls.
Proof.
  intros Htoken Hlink Hls. unfold triageIssues.
  rewrite (nonempty_eqs _ Htoken), (nonempty_eqs _ Hlink).
  set (link := getInput env "project_board"). intros Hres.
  apply result_bind_inv in Hres as (u & Hsync & Hres).
  destruct (bind_Return _ (fun _ => reconcileLabels env payload) u Hsync)
    as [-> _].
  rewrite addedLabels_app,
    (addedLabels_graphql _ (syncBoard_events env payload link)).
  cbn [app].
  rewrite (reconcileLabels_added env payload ls Hls).
  assert (Hadd : result (addTriageLabels env payload
                           (currentPriorityLabels ls (action payload)
                              (label_name payload))
                           (findPriority (bodyText (issue_body payload)))
                           (isBugType ls (action payload) (label_name payload)))
                 = Return tt).
  { revert Hres.
    unfold reconcileLabels, hasPriorityLabels, isBug, callGetLabels.
    rewrite Hls. unfold isBugType, currentPriorityLabels. cbn [bind ret].
    destruct (includes ls (lit "[Type] Bug")); cbn [orb bind ret].
    - now destruct (addTriageLabels env payload _ _ true).
    - destruct (eqs (lit "labeled") (action payload) && _); cbn [bind ret].
      + now destruct (addTriageLabels env payload _ _ true).
      + now destruct (addTriageLabels env payload _ _ false). }
  rewrite (addTriageLabels_complete env payload _ _ _ Hadd).
  unfold labelsToAdd.
  destruct (isNewIssue (action payload)) eqn:Hnew; [|reflexivity].
  unfold currentPriorityLabels, isBugType.
  rewrite (isNewIssue_not_labeled _ Hnew). cbn [andb].
  now rewrite orb_false_r.
Qed.

Lemma completed_run_labels_witness :
  addedLabels
    (trace (triageIssues
              (world boardLink allOptions
                     (Some (VStr (lit "PVT_kwDOCGvWfc4AUwHE")))
                     [lit "[Type] Bug"])
              opened))
  = labelsToAdd opened [lit "[Type] Bug"].
Proof.
  apply completed_run_labels;
    [discriminate | discriminate | reflexivity | reflexivity].
Defined.

Lemma label_failure_aborts_witness :
  result (triageIssues (worldRejectingLabels [lit "[Type] Bug"]) opened)
  = Throw labelsRejected.
Proof.
  apply (proj2 (label_failure_aborts (worldRejectingLabels [lit "[Type] Bug"])
                  opened)
           (lit "johns-test-org") (lit "github-actions-test") 42
           [lit "[Plugin] Jetpack"; lit "[Plugin] Boost"] labelsRejected).
  - vm_compute. tauto.
  - reflexivity.
Defined.

(** After the rejected addition of the plugin labels, neither the platform
    labels nor the priority label are attempted. *)
Example label_failure_run :
  trace (triageIssues (worldRejectingLabels [lit "[Type] Bug"]) opened)
  = [Graphql (GetProject (lit "johns-test-org") 11);
     Graphql (GetProjectNumber (lit "I_kwDOissue42") 11);
     Graphql (GetIssueProjectDetails (lit "I_kwDOissue42"));
     Graphql (UpdateProjectV2ItemFieldValue
                (VStr (lit "PVTSSF_priority")) (VStr fixedItemNodeId)
                (VStr (lit "PVT_kwDOCGvWfc4AUwHE")) (VStr (lit "opt_low")));
     GetLabels (lit "johns-test-org") (lit "github-actions-test") 42;
     GetLabels (lit "johns-test-org") (lit "github-actions-test") 42;
     AddLabels (lit "johns-test-org") (lit "github-actions-test") 42
               [lit "[Plugin] Jetpack"; lit "[Plugin] Boost"]].
Proof. reflexivity. Qed.

Section BoardUpdate.

Variable env : Env.
Variable payload : Payload.


End BoardUpdate.




(* ================================================================== *)
(** ** The listener of the video player *)

Import VideoPlayer.

Section Listener.

Variable atTime : value.




End Listener.




Example player_run :
  listenAll (VNum 5000) initialHook
            [playingMessage; loadedMessage; otherMessage; playingMessage;
             playingMessage]
  = ({| playerState := Ready; playerIsReady := true |},
     [(1, ActionPause); (1, ActionSetCurrentTime (VNum 5000))]).
Proof. reflexivity. Qed.
